(** * msa_sdk: the request/response wrapper of [msa_api.py]

    A shallow embedding of [MSA_API] (src/msa_sdk/msa_api.py) and of the
    [Order] calls that drive it (src/msa_sdk/order.py), together with the
    parts of the Python runtime the class relies on: integer formatting,
    [json.dumps] / [json.loads], the [random] source, the [requests]
    transport, the logger, standard output and [sys.exit].

    Python values are restricted to the JSON-serializable ones without
    floats; a Python [str] is a [string] whose characters are the code
    points 0..255. *)

From Stdlib Require Import ZArith NArith Lia Ascii String List Bool.
From stdpp Require Import base strings list gmap.


(** ** Python built-ins *)

Module Py.

(** Characters that cannot be written inside a literal. *)
Definition dquote : ascii := "034"%char.
Definition backslash : ascii := "092"%char.
Definition newline : ascii := "010"%char.
Definition carriage_return : ascii := "013"%char.
Definition tab : ascii := "009"%char.
Definition backspace : ascii := "008"%char.
Definition formfeed : ascii := "012"%char.

(** [s.startswith(p)]. *)
Fixpoint starts_with (p s : string) : bool :=
  match p, s with
  | EmptyString, _ => true
  | String _ _, EmptyString => false
  | String a p', String b s' => if decide (a = b) then starts_with p' s' else false
  end.

(** [p in s] on two [str]: substring search. *)
Fixpoint str_contains (p s : string) : bool :=
  starts_with p s ||
  match s with
  | EmptyString => false
  | String _ s' => str_contains p s'
  end.

(** [c * n] for a one-character string. *)
Fixpoint repeat_char (c : ascii) (n : nat) : string :=
  match n with
  | O => EmptyString
  | S n' => String c (repeat_char c n')
  end.

(** [sep.join(parts)]. *)
Fixpoint join (sep : string) (parts : list string) : string :=
  match parts with
  | [] => EmptyString
  | [p] => p
  | p :: rest => p +:+ sep +:+ join sep rest
  end.

(** The digit of value [d] in bases up to 16, lowercase as [%x] and
    [str] print it. *)
Definition digit_char (d : N) : ascii :=
  match d with
  | 0%N => "0" | 1%N => "1" | 2%N => "2" | 3%N => "3"
  | 4%N => "4" | 5%N => "5" | 6%N => "6" | 7%N => "7"
  | 8%N => "8" | 9%N => "9" | 10%N => "a" | 11%N => "b"
  | 12%N => "c" | 13%N => "d" | 14%N => "e" | _ => "f"
  end%char.

(** Positional digits of [n], most significant first, pushed in front
    of [acc]. Every round divides by [base], so a fuel of one more than
    the bit length of [n] is never exhausted. *)
Fixpoint digits_aux (base : N) (fuel : nat) (n : N) (acc : string) : string :=
  match fuel with
  | O => acc
  | S fuel' =>
      let acc' := String (digit_char (n mod base)) acc in
      if (n / base =? 0)%N then acc' else digits_aux base fuel' (n / base) acc'
  end.

Definition digits (base n : N) : string :=
  digits_aux base (S (N.to_nat (N.log2 n))) n EmptyString.

(** [str(z)] for an [int]. *)
Definition str_int (z : Z) : string :=
  if (z <? 0)%Z then String "-"%char (digits 10 (Z.abs_N z)) else digits 10 (Z.abs_N z).

(** ['%0<width>x' % n] for a non-negative [n]: lowercase hexadecimal,
    left-padded with zeros up to [width] (a minimum, not a maximum). *)
Definition format_x (width : nat) (n : N) : string :=
  let d := digits 16 n in
  repeat_char "0"%char (width - String.length d) +:+ d.

Definition is_lower_hex (c : ascii) : bool :=
  match c with
  | "0" | "1" | "2" | "3" | "4" | "5" | "6" | "7" | "8" | "9"
  | "a" | "b" | "c" | "d" | "e" | "f" => true
  | _ => false
  end%char.

Fixpoint all_chars (p : ascii -> bool) (s : string) : bool :=
  match s with
  | EmptyString => true
  | String c s' => p c && all_chars p s'
  end.

End Py.

(** ** Python values

    The JSON-serializable values: [None], [bool], [int], [str], [list]
    and [dict]. A [dict] keeps its items in insertion order; its keys are
    [str] or [int] (the key types [json.dumps] accepts, floats apart). *)

Inductive pykey : Type :=
| KStr (s : string)
| KInt (z : Z).

Unset Elimination Schemes.
Inductive pyval : Type :=
| PNone
| PBool (b : bool)
| PInt (z : Z)
| PStr (s : string)
| PList (l : list pyval)
| PDict (d : list (pykey * pyval)).
Set Elimination Schemes.

Global Instance pykey_eq_dec : EqDecision pykey.
Proof. solve_decision. Defined.

Module Dict.

Definition items : Type := list (pykey * pyval).

(** [d[k]], [None] standing for [KeyError]. *)
Fixpoint get (k : pykey) (d : items) : option pyval :=
  match d with
  | [] => None
  | (k', v) :: d' => if decide (k = k') then Some v else get k d'
  end.

(** [k in d]. *)
Definition has (k : pykey) (d : items) : bool :=
  match get k d with Some _ => true | None => false end.

(** [d[k] = v]: an existing key keeps its place, a new one goes last. *)
Fixpoint set (k : pykey) (v : pyval) (d : items) : items :=
  match d with
  | [] => [(k, v)]
  | (k', v') :: d' =>
      if decide (k = k') then (k', v) :: d' else (k', v') :: set k v d'
  end.

(** [del d[k]] for a key that is present. *)
Fixpoint del (k : pykey) (d : items) : items :=
  match d with
  | [] => []
  | (k', v') :: d' => if decide (k = k') then d' else (k', v') :: del k d'
  end.

Definition keys (d : items) : list pykey := map fst d.

End Dict.

(** A value all of whose dicts have pairwise distinct keys, as every
    Python dict has. *)
Fixpoint well_formed (v : pyval) : Prop :=
  match v with
  | PList l => fold_right (fun x acc => well_formed x /\ acc) True l
  | PDict d =>
      NoDup (Dict.keys d) /\
      fold_right (fun kv acc => well_formed (snd kv) /\ acc) True d
  | _ => True
  end.

(** A value all of whose dict keys, at every depth, are [str]. *)
Definition is_str_key (k : pykey) : bool :=
  match k with KStr _ => true | KInt _ => false end.

Fixpoint str_keys (v : pyval) : bool :=
  match v with
  | PList l => forallb str_keys l
  | PDict d => forallb (fun kv => is_str_key (fst kv) && str_keys (snd kv)) d
  | _ => true
  end.

(** ** The [json] module *)

Module Json.
Import Py.

(** *** [json.dumps] *)

(** One character of a [str] under [ensure_ascii=True]: the short
    escapes, the printable ASCII range as it is, [\u00xx] otherwise. *)
Definition is_plain (c : ascii) : bool :=
  (32 <=? N_of_ascii c)%N && (N_of_ascii c <=? 126)%N.

Definition escape_char (c : ascii) : string :=
  if Ascii.eqb c dquote then String backslash (String dquote EmptyString)
  else if Ascii.eqb c backslash then String backslash (String backslash EmptyString)
  else if Ascii.eqb c newline then String backslash "n"
  else if Ascii.eqb c carriage_return then String backslash "r"
  else if Ascii.eqb c tab then String backslash "t"
  else if Ascii.eqb c backspace then String backslash "b"
  else if Ascii.eqb c formfeed then String backslash "f"
  else if is_plain c then String c EmptyString
  else String backslash ("u" +:+ format_x 4 (N_of_ascii c)).

Fixpoint escape (s : string) : string :=
  match s with
  | EmptyString => EmptyString
  | String c s' => escape_char c +:+ escape s'
  end.

Definition encode_str (s : string) : string :=
  String dquote (escape s +:+ String dquote EmptyString).

(** A dict key as the text [json.dumps] coerces it to. *)
Definition key_str (k : pykey) : string :=
  match k with
  | KStr s => s
  | KInt z => str_int z
  end.

(** [json.dumps(v)] with the default separators [", "] and [": "]. *)
Fixpoint encode (v : pyval) : string :=
  match v with
  | PNone => "null"
  | PBool true => "true"
  | PBool false => "false"
  | PInt z => str_int z
  | PStr s => encode_str s
  | PList l => "[" +:+ join ", " (map encode l) +:+ "]"
  | PDict d =>
      "{" +:+
      join ", " (map (fun kv => encode_str (key_str (fst kv)) +:+ ": " +:+ encode (snd kv)) d)
      +:+ "}"
  end.

Definition dumps (v : pyval) : string := encode v.

(** [json.dumps(v, indent=4)]: items one per line, nested containers
    indented by four more spaces, empty containers closed at once. *)
Definition newline_indent (level : nat) : string :=
  String newline (repeat_char " "%char (4 * level)).

Fixpoint encode_indent (level : nat) (v : pyval) : string :=
  match v with
  | PList [] => "[]"
  | PList l =>
      "[" +:+ newline_indent (S level) +:+
      join ("," +:+ newline_indent (S level)) (map (encode_indent (S level)) l)
      +:+ newline_indent level +:+ "]"
  | PDict [] => "{}"
  | PDict d =>
      "{" +:+ newline_indent (S level) +:+
      join ("," +:+ newline_indent (S level))
        (map (fun kv => encode_str (key_str (fst kv)) +:+ ": "
                        +:+ encode_indent (S level) (snd kv)) d)
      +:+ newline_indent level +:+ "}"
  | _ => encode v
  end.

Definition dumps_indent4 (v : pyval) : string := encode_indent 0 v.

(** *** [json.loads]

    The decoder of the standard library, on the values of this model:
    a number with a fraction or an exponent, [NaN], [Infinity] and a
    [\u] escape above 255 are reported as [OutOfModel]. *)

Inductive decode_error : Type :=
| Invalid        (* what [json.loads] rejects with [JSONDecodeError] *)
| OutOfModel     (* a float or a code point above 255 *)
| Exhausted.     (* the fuel of the scanner ran out *)

Inductive result (A : Type) : Type :=
| Ok (a : A)
| Err (e : decode_error).
Global Arguments Ok {A} a.
Global Arguments Err {A} e.

Definition is_ws (c : ascii) : bool :=
  Ascii.eqb c " " || Ascii.eqb c tab || Ascii.eqb c newline
  || Ascii.eqb c carriage_return.

Fixpoint skip_ws (s : string) : string :=
  match s with
  | EmptyString => EmptyString
  | String c s' => if is_ws c then skip_ws s' else s
  end.

Definition digit_val (c : ascii) : option N :=
  let n := N_of_ascii c in
  if (48 <=? n)%N && (n <=? 57)%N then Some (n - 48)%N else None.

Definition hex_val (c : ascii) : option N :=
  let n := N_of_ascii c in
  if (48 <=? n)%N && (n <=? 57)%N then Some (n - 48)%N
  else if (97 <=? n)%N && (n <=? 102)%N then Some (n - 87)%N
  else if (65 <=? n)%N && (n <=? 70)%N then Some (n - 55)%N
  else None.

(** The character a one-letter escape stands for. *)
Definition unescape (c : ascii) : option ascii :=
  if Ascii.eqb c dquote then Some dquote
  else if Ascii.eqb c backslash then Some backslash
  else if Ascii.eqb c "/" then Some "/"%char
  else if Ascii.eqb c "b" then Some backspace
  else if Ascii.eqb c "f" then Some formfeed
  else if Ascii.eqb c "n" then Some newline
  else if Ascii.eqb c "r" then Some carriage_return
  else if Ascii.eqb c "t" then Some tab
  else None.

Definition hex4 (a b c d : ascii) : option N :=
  match hex_val a, hex_val b, hex_val c, hex_val d with
  | Some x, Some y, Some z, Some w => Some (((x * 16 + y) * 16 + z) * 16 + w)%N
  | _, _, _, _ => None
  end.

(** [scanstring], entered after the opening quote: the decoded text
    and what follows the closing quote. Raw control characters are
    rejected (strict mode). *)
Fixpoint scanstring (s : string) : result (string * string) :=
  match s with
  | EmptyString => Err Invalid
  | String c r =>
      if Ascii.eqb c dquote then Ok (EmptyString, r)
      else if Ascii.eqb c backslash then
        match r with
        | EmptyString => Err Invalid
        | String e r1 =>
            if Ascii.eqb e "u" then
              match r1 with
              | String h1 (String h2 (String h3 (String h4 r2))) =>
                  match hex4 h1 h2 h3 h4 with
                  | Some n =>
                      if (n <? 256)%N then
                        match scanstring r2 with
                        | Ok (t, rest) => Ok (String (ascii_of_N n) t, rest)
                        | Err e => Err e
                        end
                      else Err OutOfModel
                  | None => Err Invalid
                  end
              | _ => Err Invalid
              end
            else
              match unescape e with
              | Some x =>
                  match scanstring r1 with
                  | Ok (t, rest) => Ok (String x t, rest)
                  | Err e => Err e
                  end
              | None => Err Invalid
              end
        end
      else if (N_of_ascii c <? 32)%N then Err Invalid
      else
        match scanstring r with
        | Ok (t, rest) => Ok (String c t, rest)
        | Err e => Err e
        end
  end.

(** The digits that continue a number. *)
Fixpoint read_digits (acc : N) (s : string) : N * string :=
  match s with
  | EmptyString => (acc, s)
  | String c r =>
      match digit_val c with
      | Some d => read_digits (acc * 10 + d) r
      | None => (acc, s)
      end
  end.

(** The integer part [0|[1-9][0-9]*] of a number. *)
Definition scan_nat (s : string) : option (N * string) :=
  match s with
  | EmptyString => None
  | String c r =>
      match digit_val c with
      | Some 0%N => Some (0%N, r)
      | Some d => Some (read_digits d r)
      | None => None
      end
  end.

Definition starts_with_digit (s : string) : bool :=
  match s with
  | String c _ => match digit_val c with Some _ => true | None => false end
  | EmptyString => false
  end.

(** Whether a fraction [.d] or an exponent [e[+-]d] follows, which
    makes the number a float. *)
Definition float_follows (s : string) : bool :=
  match s with
  | String c r =>
      if Ascii.eqb c "." then starts_with_digit r
      else if Ascii.eqb c "e" || Ascii.eqb c "E" then
        match r with
        | String x r' =>
            if Ascii.eqb x "+" || Ascii.eqb x "-" then starts_with_digit r'
            else starts_with_digit r
        | EmptyString => false
        end
      else false
  | EmptyString => false
  end.

Definition scan_number (s : string) : result (pyval * string) :=
  let signed :=
    match s with
    | String c r =>
        if Ascii.eqb c "-" then
          match scan_nat r with
          | Some (n, rest) => Some ((- Z.of_N n)%Z, rest)
          | None => None
          end
        else
          match scan_nat s with
          | Some (n, rest) => Some (Z.of_N n, rest)
          | None => None
          end
    | EmptyString => None
    end in
  match signed with
  | Some (z, rest) => if float_follows rest then Err OutOfModel else Ok (PInt z, rest)
  | None =>
      if starts_with "NaN" s || starts_with "Infinity" s || starts_with "-Infinity" s
      then Err OutOfModel else Err Invalid
  end.

Fixpoint drop (n : nat) (s : string) : string :=
  match n, s with
  | S n', String _ s' => drop n' s'
  | _, _ => s
  end.

(** [scan_once] with the array and object loops. [scan_object] is
    entered after the opening quote of a key, [scan_array] at the
    first character of an element. *)
Fixpoint scan_once (fuel : nat) (s : string) : result (pyval * string) :=
  match fuel with
  | O => Err Exhausted
  | S f =>
      match s with
      | EmptyString => Err Invalid
      | String c r =>
          if Ascii.eqb c dquote then
            match scanstring r with
            | Ok (t, rest) => Ok (PStr t, rest)
            | Err e => Err e
            end
          else if Ascii.eqb c "{" then
            match skip_ws r with
            | String c' r' =>
                if Ascii.eqb c' "}" then Ok (PDict [], r')
                else if Ascii.eqb c' dquote then scan_object f [] r'
                else Err Invalid
            | EmptyString => Err Invalid
            end
          else if Ascii.eqb c "[" then
            match skip_ws r with
            | String c' r' =>
                if Ascii.eqb c' "]" then Ok (PList [], r')
                else scan_array f [] (String c' r')
            | EmptyString => Err Invalid
            end
          else if starts_with "null" s then Ok (PNone, drop 4 s)
          else if starts_with "true" s then Ok (PBool true, drop 4 s)
          else if starts_with "false" s then Ok (PBool false, drop 5 s)
          else scan_number s
      end
  end
with scan_array (fuel : nat) (acc : list pyval) (s : string)
     : result (pyval * string) :=
  match fuel with
  | O => Err Exhausted
  | S f =>
      match scan_once f s with
      | Ok (v, r) =>
          match skip_ws r with
          | String c r' =>
              if Ascii.eqb c "]" then Ok (PList (acc ++ [v]), r')
              else if Ascii.eqb c "," then scan_array f (acc ++ [v]) (skip_ws r')
              else Err Invalid
          | EmptyString => Err Invalid
          end
      | Err e => Err e
      end
  end
with scan_object (fuel : nat) (acc : Dict.items) (s : string)
     : result (pyval * string) :=
  match fuel with
  | O => Err Exhausted
  | S f =>
      match scanstring s with
      | Ok (k, r) =>
          match skip_ws r with
          | String c r1 =>
              if Ascii.eqb c ":" then
                match scan_once f (skip_ws r1) with
                | Ok (v, r2) =>
                    match skip_ws r2 with
                    | String c2 r3 =>
                        if Ascii.eqb c2 "}" then
                          Ok (PDict (Dict.set (KStr k) v acc), r3)
                        else if Ascii.eqb c2 "," then
                          match skip_ws r3 with
                          | String c3 r4 =>
                              if Ascii.eqb c3 dquote
                              then scan_object f (Dict.set (KStr k) v acc) r4
                              else Err Invalid
                          | EmptyString => Err Invalid
                          end
                        else Err Invalid
                    | EmptyString => Err Invalid
                    end
                | Err e => Err e
                end
              else Err Invalid
          | EmptyString => Err Invalid
          end
      | Err e => Err e
      end
  end.

(** [json.loads(s)]: one value between optional whitespace, and
    nothing after it. An element costs the scanner two rounds (the
    loop, then the value) and at least one character, so twice the
    length of the text bounds the fuel it needs. *)
Definition loads (s : string) : result pyval :=
  match scan_once (S (2 * String.length s)) (skip_ws s) with
  | Ok (v, rest) =>
      match skip_ws rest with
      | EmptyString => Ok v
      | String _ _ => Err Invalid
      end
  | Err e => Err e
  end.

(** What [loads] makes of the text of [v]: int keys have become their
    decimal text, and a key that then occurs twice keeps its first
    place and its last value. *)
Fixpoint normalize (v : pyval) : pyval :=
  match v with
  | PList l => PList (map normalize l)
  | PDict d =>
      PDict (fold_left
               (fun acc kv => Dict.set (KStr (key_str (fst kv))) (normalize (snd kv)) acc)
               d [])
  | _ => v
  end.

(** *** Notions used to state the facts about the decoder *)

(** What may follow a number in a text without continuing it. *)
Definition number_end (s : string) : bool :=
  negb (starts_with_digit s) && negb (float_follows s).

(** The characters a value can start with. *)
Definition value_start (c : ascii) : bool :=
  Ascii.eqb c dquote || Ascii.eqb c "{" || Ascii.eqb c "[" || Ascii.eqb c "n"
  || Ascii.eqb c "t" || Ascii.eqb c "f" || Ascii.eqb c "-"
  || match digit_val c with Some _ => true | None => false end.

(** Rounds of the scanner that the text of [v] takes. *)
Fixpoint need (v : pyval) : nat :=
  match v with
  | PList l => S (fold_right (fun x acc => S (need x + acc)) 0 l)
  | PDict d => S (fold_right (fun kv acc => S (need (snd kv) + acc)) 0 d)
  | _ => 1
  end.

(** The text of one item of a dict. *)
Definition item (kv : pykey * pyval) : string :=
  encode_str (key_str (fst kv)) +:+ ": " +:+ encode (snd kv).

(** How [loads] adds one item of the text to the dict it builds. *)
Definition step (acc : Dict.items) (kv : pykey * pyval) : Dict.items :=
  Dict.set (KStr (key_str (fst kv))) (normalize (snd kv)) acc.

(** The scanner reads the text of [v] back, whatever follows it. *)
Definition scans (v : pyval) : Prop :=
  forall fuel rest, need v <= fuel -> number_end rest = true ->
    scan_once fuel (encode v +:+ rest) = Ok (normalize v, rest).

Definition not_newline (c : ascii) : bool := negb (Ascii.eqb c newline).

End Json.

(** A value as [json.loads] builds them: [str] keys only, and no key
    twice in a dict. *)
Definition normal (v : pyval) : Prop := str_keys v = true /\ well_formed v.

(** ** The process a task runs in *)

(** Exceptions the modelled code raises or lets through.
    [Unmodelled] is no exception of Python: it marks a run that has
    left the model, on a JSON text with a float or a code point above
    255, or on a reference to no object. *)
Inductive exn : Type :=
| TypeError (msg : string)
| KeyError (key : string)
| AttributeError (msg : string)
| JSONDecodeError
| RequestException (msg : string)
| SystemExit (code : Z)
| Unmodelled.

Inductive outcome (A : Type) : Type :=
| Return (a : A)
| Raise (e : exn).
Global Arguments Return {A} a.
Global Arguments Raise {A} e.

(** What [requests] hands back: the status code, its own classification
    [ok] of that code, and the body as text. *)
Record Response : Type := mkResponse {
  status_code : Z;
  ok : bool;
  text : string;
}.

(** What [requests] is handed. [req_data] and [req_params] are [PNone]
    and [req_timeout] is [None] where the keyword is not passed. *)
Record Request : Type := mkRequest {
  req_verb : string;
  req_url : string;
  req_headers : gmap string string;
  req_data : pyval;
  req_params : pyval;
  req_timeout : option Z;
}.

(** An object handed to [json.dumps]: a value of the model, or a class
    object, which [json.dumps] rejects. *)
Inductive pyobj : Type :=
| Value (v : pyval)
| ClassObject.

(** The attributes of an [MSA_API] instance. *)
Record MSA_API : Type := mkMSA_API {
  url : string;
  _token : string;
  path : string;
  response : option Response;
  log_response : bool;
  _content : string;
  action : pyobj;
}.

Definition loc : Type := nat.

(** The state of the process: the client [self], the ambient
    [msa_sdk.context] (the entries the client reads are strings), the
    objects passed by reference, the records of the [msa-sdk] logger,
    standard output, the number of [random.randrange] calls made and the
    HTTP calls issued, oldest first. *)
Record world : Type := mkWorld {
  self : MSA_API;
  context : gmap string string;
  heap : list pyval;
  logged : list string;
  stdout : string;
  draws : nat;
  wire : list Request;
}.

(** Updates of one field. *)
Definition put_self (a : MSA_API) (w : world) : world :=
  mkWorld a (context w) (heap w) (logged w) (stdout w) (draws w) (wire w).
Definition put_context (c : gmap string string) (w : world) : world :=
  mkWorld (self w) c (heap w) (logged w) (stdout w) (draws w) (wire w).
Definition put_heap (h : list pyval) (w : world) : world :=
  mkWorld (self w) (context w) h (logged w) (stdout w) (draws w) (wire w).
Definition put_logged (l : list string) (w : world) : world :=
  mkWorld (self w) (context w) (heap w) l (stdout w) (draws w) (wire w).
Definition put_stdout (o : string) (w : world) : world :=
  mkWorld (self w) (context w) (heap w) (logged w) o (draws w) (wire w).
Definition put_draws (n : nat) (w : world) : world :=
  mkWorld (self w) (context w) (heap w) (logged w) (stdout w) n (wire w).
Definition put_wire (rs : list Request) (w : world) : world :=
  mkWorld (self w) (context w) (heap w) (logged w) (stdout w) (draws w) rs.

Definition M (A : Type) : Type := world -> outcome A * world.

Definition ret {A} (a : A) : M A := fun w => (Return a, w).
Definition raise {A} (e : exn) : M A := fun w => (Raise e, w).
Definition bind {A B} (m : M A) (k : A -> M B) : M B :=
  fun w =>
    match m w with
    | (Return a, w') => k a w'
    | (Raise e, w') => (Raise e, w')
    end.

Notation "x <- m ;; k" := (bind m (fun x => k))
  (at level 100, m at next level, right associativity).
Notation "m ;;; k" := (bind m (fun _ => k))
  (at level 100, right associativity).

Definition from_default {A} (d : A) (o : option A) : A :=
  match o with Some a => a | None => d end.

Definition set_self (f : MSA_API -> MSA_API) : M unit := fun w =>
  (Return tt, put_self (f (self w)) w).
Definition get_self : M MSA_API := fun w => (Return (self w), w).

Definition set_path (p : string) (a : MSA_API) : MSA_API :=
  mkMSA_API (url a) (_token a) p (response a) (log_response a) (_content a) (action a).
Definition set_response (r : Response) (a : MSA_API) : MSA_API :=
  mkMSA_API (url a) (_token a) (path a) (Some r) (log_response a) (_content a) (action a).
Definition set_content (c : string) (a : MSA_API) : MSA_API :=
  mkMSA_API (url a) (_token a) (path a) (response a) (log_response a) c (action a).
Definition set_action (x : pyobj) (a : MSA_API) : MSA_API :=
  mkMSA_API (url a) (_token a) (path a) (response a) (log_response a) (_content a) x.

Definition get_context : M (gmap string string) := fun w => (Return (context w), w).
(** [context[k] = v]. *)
Definition context_set (k v : string) : M unit := fun w =>
  (Return tt, put_context (<[k := v]> (context w)) w).
(** [context[k]]. *)
Definition context_get (k : string) : M string := fun w =>
  match context w !! k with
  | Some v => (Return v, w)
  | None => (Raise (KeyError k), w)
  end.

(** [logger.info(line)]. *)
Definition logger_info (line : string) : M unit := fun w =>
  (Return tt, put_logged (logged w ++ [line]) w).

(** [print(line)]. *)
Definition print (line : string) : M unit := fun w =>
  (Return tt, put_stdout (stdout w +:+ line +:+ String Py.newline EmptyString) w).

(** [sys.exit(code)]. *)
Definition sys_exit {A} (code : Z) : M A := raise (SystemExit code).

(** Objects held by reference. *)
Definition alloc (v : pyval) : M loc := fun w =>
  (Return (length (heap w)), put_heap (heap w ++ [v]) w).
Definition load (l : loc) : M pyval := fun w =>
  match heap w !! l with
  | Some v => (Return v, w)
  | None => (Raise Unmodelled, w)
  end.
Definition store (l : loc) (v : pyval) : M unit := fun w =>
  (Return tt, put_heap (<[l := v]> (heap w)) w).

(** [copy.deepcopy(obj)]: a new object with the same value. *)
Definition deepcopy (l : loc) : M loc :=
  v <- load l ;; alloc v.

(** ['TOKEN' in obj], by the type of [obj]. *)
Definition is_str (s : string) (v : pyval) : bool :=
  match v with PStr t => bool_decide (s = t) | _ => false end.

Definition py_in (s : string) (l : loc) : M bool :=
  v <- load l ;;
  match v with
  | PDict d => ret (Dict.has (KStr s) d)
  | PList items => ret (existsb (is_str s) items)
  | PStr t => ret (Py.str_contains s t)
  | _ => raise (TypeError "argument is not iterable")
  end.

(** [del obj['TOKEN']]. *)
Definition py_del (l : loc) (s : string) : M unit :=
  v <- load l ;;
  match v with
  | PDict d =>
      if Dict.has (KStr s) d then store l (PDict (Dict.del (KStr s) d))
      else raise (KeyError s)
  | _ => raise (TypeError "object does not support item deletion")
  end.

(** [obj[key]] for a [str] key. *)
Definition subscript (v : pyval) (key : string) : M pyval :=
  match v with
  | PDict d =>
      match Dict.get (KStr key) d with
      | Some x => ret x
      | None => raise (KeyError key)
      end
  | _ => raise (TypeError "indices must be integers or object is not subscriptable")
  end.

(** [response.json()]. *)
Definition response_json (r : Response) : M pyval :=
  match Json.loads (text r) with
  | Json.Ok v => ret v
  | Json.Err Json.Invalid => raise JSONDecodeError
  | Json.Err _ => raise Unmodelled
  end.

(** The three-field structure of an envelope. *)
Definition envelope (status comment : pyval) (new_params : pyval) : pyval :=
  PDict [(KStr "wo_status", status);
         (KStr "wo_comment", comment);
         (KStr "wo_newparams", new_params)].

(** [host_port()]. *)
Definition host_port : string * string := ("localhost", "8480").

Section Client.

(** The status tokens of [msa_sdk.constants], which the class copies
    into its attributes of the same names. *)
Variables ENDED FAILED RUNNING WARNING PAUSED : string.

(** The random source: the raw value behind the [i]-th draw. *)
Variable rand : nat -> N.

(** The network: what [requests] returns or raises for a request,
    given how many were issued before it. *)
Variable transport : nat -> Request -> outcome Response.

(** [random.randrange(n)] for a positive [n]. *)
Definition randrange (n : N) : M N := fun w =>
  (Return (rand (draws w) mod n)%N, put_draws (S (draws w)) w).

(** [requests.post], [.get], [.put] and [.delete]. *)
Definition requests (r : Request) : M Response := fun w =>
  (transport (length (wire w)) r, put_wire (wire w ++ [r]) w).

(** [MSA_API.__init__]. *)
Definition __init__ : M unit :=
  tok <- context_get "TOKEN" ;;
  set_self (fun _ =>
    mkMSA_API ("http://" +:+ fst host_port +:+ ":" +:+ snd host_port +:+ "/ubi-api-rest")
              tok EmptyString None true EmptyString ClassObject).

(** [MSA_API.process_content]. The dictionary [response] refers to
    the caller's [new_params], which is read when [response] is
    serialized, after the logging branch has run. *)
Definition process_content (status : string) (comment : pyobj)
    (new_params : loc) (log_response : option bool) : M string :=
  (if from_default false log_response then
     woToken <- deepcopy new_params ;;
     found <- py_in "TOKEN" woToken ;;
     (if found : bool then py_del woToken "TOKEN" else ret tt) ;;;
     sanitized <- load woToken ;;
     let pretty_json := Json.dumps_indent4 sanitized in
     logger_info pretty_json
   else ret tt) ;;;
  params <- load new_params ;;
  match comment with
  | Value c => ret (Json.dumps (envelope (PStr status) c params))
  | ClassObject => raise (TypeError "Object of type type is not JSON serializable")
  end.

(** [MSA_API.task_error]. *)
Definition task_error (comment : pyobj) (context : loc)
    (log_response : option bool) : M unit :=
  line <- process_content FAILED comment context
            (Some (from_default true log_response)) ;;
  print line ;;;
  sys_exit 1.

(** [MSA_API.task_success]. *)
Definition task_success (comment : pyobj) (context : loc)
    (log_response : option bool) : M unit :=
  line <- process_content ENDED comment context
            (Some (from_default true log_response)) ;;
  print line ;;;
  sys_exit 0.

(** The [token] property. *)
Definition token (a : MSA_API) : string := _token a.

(** The [content] property. *)
Definition content (a : MSA_API) : string :=
  match _content a with
  | EmptyString => "{}"
  | String _ _ => _content a
  end.

(** [MSA_API.check_response]. *)
Definition check_response : M unit :=
  this <- get_self ;;
  match response this with
  | None => raise (AttributeError "'NoneType' object has no attribute 'ok'")
  | Some resp =>
      if negb (ok resp) then
        json_response <- response_json resp ;;
        message <- subscript json_response "message" ;;
        ref <- alloc message ;;
        c <- process_content FAILED (action this) ref None ;;
        set_self (set_content c)
      else ret tt
  end.

(** [MSA_API.create_trace_id]. *)
Definition create_trace_id : M (string * string) :=
  t <- randrange (16 ^ 32) ;;
  s <- randrange (6 ^ 23) ;;
  let trace_id := Py.format_x 32 t in
  let span_id := Py.format_x 16 s in
  ret (trace_id, span_id).

(** [MSA_API.add_trace_headers]: returns [headers] as the call leaves
    it. *)
Definition add_trace_headers (headers : gmap string string)
    : M (gmap string string) :=
  ctx <- get_context ;;
  (match ctx !! "TRACEID" with
   | None =>
       ts <- create_trace_id ;;
       context_set "TRACEID" (fst ts) ;;;
       context_set "SPANID" (snd ts) ;;;
       logger_info ("Creating traceId: 00-" +:+ fst ts +:+ "-" +:+ snd ts +:+ "-01")
   | Some _ => ret tt
   end) ;;;
  t1 <- context_get "TRACEID" ;;
  s1 <- context_get "SPANID" ;;
  let headers := <["traceparent" := "00-" +:+ t1 +:+ "-" +:+ s1 +:+ "-01"]> headers in
  t2 <- context_get "TRACEID" ;;
  let headers := <["X-B3-TraceId" := t2]> headers in
  s2 <- context_get "SPANID" ;;
  let headers := <["X-B3-SpanId" := s2]> headers in
  ret headers.

Definition bearer (a : MSA_API) : string := "Bearer " +:+ _token a.

(** [MSA_API._call_post], with [data=None] and [timeout=60] where the
    caller passes none. *)
Definition _call_post (data : option pyval) (timeout : option (option Z)) : M unit :=
  let data := from_default PNone data in
  let timeout := from_default (Some 60%Z) timeout in
  this <- get_self ;;
  let headers : gmap string string :=
    <["Authorization" := bearer this]>
      (<["Accept" := "application/json"]>
         (<["Content-Type" := "application/json"]> ∅)) in
  headers <- add_trace_headers headers ;;
  let data := match data with PNone => PDict [] | _ => data end in
  body <- match data with
          | PDict _ => ret (Json.dumps data)
          | _ => raise (TypeError "Parameters needs to be a dictionary")
          end ;;
  this <- get_self ;;
  let target := url this +:+ path this in
  resp <- requests (mkRequest "POST" target headers (PStr body) PNone timeout) ;;
  set_self (set_response resp) ;;;
  set_self (set_content (text resp)) ;;;
  check_response.

(** [MSA_API._call_get], with [timeout=60] and [params={}] where the
    caller passes none. *)
Definition _call_get (timeout : option (option Z)) (params : option pyval) : M unit :=
  let timeout := from_default (Some 60%Z) timeout in
  let params := from_default (PDict []) params in
  this <- get_self ;;
  let headers : gmap string string :=
    <["Authorization" := bearer this]>
      (<["Accept" := "application/json"]> ∅) in
  headers <- add_trace_headers headers ;;
  this <- get_self ;;
  let target := url this +:+ path this in
  resp <- requests (mkRequest "GET" target headers PNone params timeout) ;;
  set_self (set_response resp) ;;;
  set_self (set_content (text resp)) ;;;
  check_response.

(** [MSA_API._call_put], with [data=None] where the caller passes
    none; no [timeout] is handed to [requests]. *)
Definition _call_put (data : option pyval) : M unit :=
  let data := from_default PNone data in
  this <- get_self ;;
  let headers : gmap string string :=
    <["Authorization" := bearer this]>
      (<["Content-Type" := "application/json"]>
         (<["Accept" := "application/json"]> ∅)) in
  headers <- add_trace_headers headers ;;
  this <- get_self ;;
  let target := url this +:+ path this in
  resp <- requests (mkRequest "PUT" target headers data PNone None) ;;
  set_self (set_response resp) ;;;
  set_self (set_content (text resp)) ;;;
  check_response.

(** [MSA_API._call_delete]; no [timeout] is handed to [requests]. *)
Definition _call_delete : M unit :=
  this <- get_self ;;
  let headers : gmap string string :=
    <["Authorization" := bearer this]>
      (<["Accept" := "application/json"]> ∅) in
  headers <- add_trace_headers headers ;;
  this <- get_self ;;
  let target := url this +:+ path this in
  resp <- requests (mkRequest "DELETE" target headers PNone PNone None) ;;
  set_self (set_response resp) ;;;
  set_self (set_content (text resp)) ;;;
  check_response.

End Client.

(** ** The [Order] calls of [order.py] *)

Section Order.

Variable FAILED : string.
Variable rand : nat -> N.
Variable transport : nat -> Request -> outcome Response.

(** [self.device_id], which [Order] inherits from [Device]. *)
Variable device_id : Z.

Definition api_path : string := "/ordercommand".

(** [Order.command_execute], with [timeout=300] where the caller
    passes none. *)
Definition command_execute (command : string) (params : pyval)
    (timeout : option (option Z)) : M unit :=
  let timeout := from_default (Some 300%Z) timeout in
  set_self (set_action (Value (PStr "Command execute"))) ;;;
  set_self (set_path (api_path +:+ "/execute/" +:+ Py.str_int device_id
                      +:+ "/" +:+ command)) ;;;
  _call_post FAILED rand transport (Some params) (Some timeout).

(** [Order.command_generate_configuration]. *)
Definition command_generate_configuration (command : string) (params : pyval)
    : M unit :=
  set_self (set_action (Value (PStr "Command generate configuration"))) ;;;
  set_self (set_path (api_path +:+ "/get/configuration/" +:+ Py.str_int device_id
                      +:+ "/" +:+ command)) ;;;
  _call_post FAILED rand transport (Some params) None.

(** [Order.command_synchronize]. *)
Definition command_synchronize (timeout : option Z) : M unit :=
  set_self (set_action (Value (PStr "Command synchronize"))) ;;;
  set_self (set_path (api_path +:+ "/synchronize/" +:+ Py.str_int device_id)) ;;;
  _call_post FAILED rand transport None (Some timeout).

(** [Order.command_objects_all]. *)
Definition command_objects_all : M unit :=
  set_self (set_action (Value (PStr "Get Microservices"))) ;;;
  set_self (set_path (api_path +:+ "/objects/" +:+ Py.str_int device_id)) ;;;
  _call_get FAILED rand transport None None.

End Order.

(** ** Callers *)

(** One transport call on the client, with the arguments the caller
    passes ([None] where it passes none). *)
Inductive call : Type :=
| POST (data : option pyval) (timeout : option (option Z))
| GET (timeout : option (option Z)) (params : option pyval)
| PUT (data : option pyval)
| DELETE.

Section Callers.

Variable FAILED : string.
Variable rand : nat -> N.
Variable transport : nat -> Request -> outcome Response.

Definition perform (c : call) : M unit :=
  match c with
  | POST data timeout => _call_post FAILED rand transport data timeout
  | GET timeout params => _call_get FAILED rand transport timeout params
  | PUT data => _call_put FAILED rand transport data
  | DELETE => _call_delete FAILED rand transport
  end.

(** A caller that sets attributes of the client ([path], [action]) as
    the domain methods do, makes a call, and goes on whatever the
    outcome of the call. *)
Fixpoint perform_all (cs : list ((MSA_API -> MSA_API) * call)) (w : world) : world :=
  match cs with
  | [] => w
  | (prepare, c) :: cs' =>
      perform_all cs' (snd ((set_self prepare ;;; perform c) w))
  end.

End Callers.

(** The trace headers a request carries. *)
Definition trace_of (r : Request) : option string * option string * option string :=
  (req_headers r !! "traceparent",
   req_headers r !! "X-B3-TraceId",
   req_headers r !! "X-B3-SpanId").

Definition traceparent (t s : string) : string :=
  "00-" +:+ t +:+ "-" +:+ s +:+ "-01".

(** The three headers [add_trace_headers] writes. *)
Definition with_trace (t s : string) (headers : gmap string string)
    : gmap string string :=
  <["X-B3-SpanId" := s]>
    (<["X-B3-TraceId" := t]> (<["traceparent" := traceparent t s]> headers)).

(** A request that carries the trace id [t] and the span id [s]. *)
Definition carries (t s : string) (r : Request) : Prop :=
  trace_of r = (Some (traceparent t s), Some t, Some s).

(** The trace pair [create_trace_id] makes of the next two draws. *)
Definition fresh_trace (rand : nat -> N) (w : world) : string * string :=
  (Py.format_x 32 (rand (draws w) mod 16 ^ 32)%N,
   Py.format_x 16 (rand (S (draws w)) mod 6 ^ 23)%N).

(** The world as [add_trace_headers] leaves it: untouched when the
    context holds a trace id, with a new pair stored and logged when it
    holds none. *)
Definition settle_trace (rand : nat -> N) (w : world) : world :=
  match context w !! "TRACEID" with
  | Some _ => w
  | None =>
      let ts := fresh_trace rand w in
      put_draws (S (S (draws w)))
        (put_logged
           (logged w ++ ["Creating traceId: 00-" +:+ fst ts +:+ "-" +:+ snd ts +:+ "-01"])
           (put_context (<["SPANID" := snd ts]> (<["TRACEID" := fst ts]> (context w))) w))
  end.

(** The trace id and span id the context holds. *)
Definition trace_pair (w : world) : option (string * string) :=
  match context w !! "TRACEID", context w !! "SPANID" with
  | Some t, Some s => Some (t, s)
  | _, _ => None
  end.


(** What a call leaves of the world apart from the trace: the client,
    the objects, standard output and the requests issued. *)
Definition same_but_trace (w w' : world) : Prop :=
  self w' = self w /\ heap w' = heap w /\ stdout w' = stdout w
  /\ wire w' = wire w.

(** The copy of [new_params] that [process_content] logs, for a
    mapping. *)
Definition sanitized (d : Dict.items) : Dict.items :=
  if Dict.has (KStr "TOKEN") d then Dict.del (KStr "TOKEN") d else d.


(** The timeout a verb hands to [requests]. *)
Definition timeout_of (c : call) : option Z :=
  match c with
  | POST _ timeout | GET timeout _ => from_default (Some 60%Z) timeout
  | PUT _ | DELETE => None
  end.

(** What a task function leaves behind, for a mapping [d] it is handed:
    the world after the optional logging, and one more line on standard
    output. *)
Definition reported (status comment : string) (d : Dict.items)
    (log : option bool) (w : world) : world :=
  let line := Json.dumps (envelope (PStr status) (PStr comment) (PDict d)) in
  let w1 :=
    if from_default true log
    then put_logged (logged w ++ [Json.dumps_indent4 (PDict (sanitized d))])
           (put_heap (heap w ++ [PDict (sanitized d)]) w)
    else w in
  put_stdout (stdout w +:+ line +:+ String Py.newline EmptyString) w1.

(** The client once a verb has stored the response [resp]. *)
Definition answered (resp : Response) (a : MSA_API) : MSA_API :=
  set_content (text resp) (set_response resp a).

(** The statements every verb ends with, once [requests] has returned
    [resp]. *)
Definition finish (FAILED : string) (resp : Response) : M unit :=
  set_self (set_response resp) ;;;
  set_self (set_content (text resp)) ;;;
  check_response FAILED.

(** The headers each verb starts from, before the trace headers. *)
Definition base_headers (c : call) (a : MSA_API) : gmap string string :=
  match c with
  | POST _ _ =>
      <["Authorization" := bearer a]>
        (<["Accept" := "application/json"]>
           (<["Content-Type" := "application/json"]> ∅))
  | PUT _ =>
      <["Authorization" := bearer a]>
        (<["Content-Type" := "application/json"]>
           (<["Accept" := "application/json"]> ∅))
  | GET _ _ | DELETE =>
      <["Authorization" := bearer a]> (<["Accept" := "application/json"]> ∅)
  end.

(** The request a verb hands to [requests], given the headers, or the
    exception it raises instead. *)
Definition request_of (c : call) (a : MSA_API) (headers : gmap string string)
    : outcome Request :=
  let target := url a +:+ path a in
  match c with
  | POST data timeout =>
      match from_default PNone data with
      | PNone =>
          Return (mkRequest "POST" target headers (PStr (Json.dumps (PDict []))) PNone
                            (from_default (Some 60%Z) timeout))
      | PDict d =>
          Return (mkRequest "POST" target headers (PStr (Json.dumps (PDict d))) PNone
                            (from_default (Some 60%Z) timeout))
      | _ => Raise (TypeError "Parameters needs to be a dictionary")
      end
  | GET timeout params =>
      Return (mkRequest "GET" target headers PNone (from_default (PDict []) params)
                        (from_default (Some 60%Z) timeout))
  | PUT data =>
      Return (mkRequest "PUT" target headers (from_default PNone data) PNone None)
  | DELETE =>
      Return (mkRequest "DELETE" target headers PNone PNone None)
  end.

(** ** Sample data *)

Module Sample.

Definition quoted (s : string) : string :=
  String Py.dquote (s +:+ String Py.dquote EmptyString).

(** Modelled from the spec: the status tokens ENDED and FAILED of
    [msa_sdk.constants], as the data model of the spec lists them. *)
Definition ended : string := "ENDED".
Definition failed : string := "FAILED".

Definition rand0 : nat -> N := fun i => (N.of_nat i * 1000003 + 77)%N.

Definition answer (r : Response) : nat -> Request -> outcome Response :=
  fun _ _ => Return r.

Definition services : Response :=
  mkResponse 200 true ("[" +:+ quoted "svc1" +:+ "," +:+ quoted "svc2" +:+ "]").

Definition bad_input : Response :=
  mkResponse 400 false
    ("{" +:+ quoted "message" +:+ ":" +:+ quoted "bad input" +:+ "}").

Definition no_content : Response := mkResponse 204 true EmptyString.

(** A process whose ambient context holds the token ["abc"] and
    nothing else, with a client constructed from it. *)
Definition client : MSA_API :=
  mkMSA_API "http://localhost:8480/ubi-api-rest" "abc" EmptyString None true
            EmptyString ClassObject.

Definition start : world :=
  mkWorld client {["TOKEN" := "abc"]} [] [] EmptyString 0 [].

(** The same process holding one mapping by reference. *)
Definition holding (v : pyval) : world :=
  mkWorld client {["TOKEN" := "abc"]} [v] [] EmptyString 0 [].

End Sample.

(** ** Properties the claims are stated with *)

(** The field [key] of the envelope that the text [content] decodes to. *)
Definition decoded_field (key content : string) : option pyval :=
  match Json.loads content with
  | Json.Ok (PDict d) => Dict.get (KStr key) d
  | _ => None
  end.

(** The decoded [wo_comment] is a string that contains [msg]. *)
Definition comment_contains (content msg : string) : Prop :=
  exists c, decoded_field "wo_comment" content = Some (PStr c)
            /\ Py.str_contains msg c = true.

(** Between [w] and [w'] standard output has grown by exactly one
    line, the JSON text of the envelope of [status], [comment] and the
    mapping [d]: the text holds no line break and parses to that
    envelope, with the mapping as [json.loads] returns it. *)
Definition printed_envelope (status comment : string) (d : Dict.items)
    (w w' : world) : Prop :=
  let line := Json.dumps (envelope (PStr status) (PStr comment) (PDict d)) in
  stdout w' = stdout w +:+ line +:+ String Py.newline EmptyString
  /\ Py.all_chars Json.not_newline line = true
  /\ Json.loads line
     = Json.Ok (envelope (PStr status) (PStr comment) (Json.normalize (PDict d))).

(** Parsing the text gives back the three fields as they were encoded. *)
Definition round_trips (status comment : string) (m : pyval) (txt : string) : Prop :=
  Json.loads txt = Json.Ok (envelope (PStr status) (PStr comment) m).

(** ** The rest of [msa_api.py] and of [order.py] *)

(** *** [int(x)] *)

Module PyInt.

(** The characters [int] takes for whitespace around a number, among
    the code points 0..255. *)
Definition is_space (c : ascii) : bool :=
  let n := N_of_ascii c in
  ((9 <=? n)%N && (n <=? 13)%N) || (n =? 32)%N || (n =? 133)%N || (n =? 160)%N.

Fixpoint lstrip (s : string) : string :=
  match s with
  | EmptyString => EmptyString
  | String c r => if is_space c then lstrip r else s
  end.

Fixpoint all_space (s : string) : bool :=
  match s with
  | EmptyString => true
  | String c r => is_space c && all_space r
  end.

(** The digits after the first one: a single underscore may stand
    between two digits. Returns the number and what follows it. *)
Fixpoint digit_run (acc : N) (s : string) : option (N * string) :=
  match s with
  | EmptyString => Some (acc, s)
  | String c r =>
      match Json.digit_val c with
      | Some d => digit_run (acc * 10 + d) r
      | None =>
          if Ascii.eqb c "_" then
            match r with
            | String c' r' =>
                match Json.digit_val c' with
                | Some d => digit_run (acc * 10 + d) r'
                | None => None
                end
            | EmptyString => None
            end
          else Some (acc, s)
      end
  end.

(** A number without sign, up to the end of the text but for trailing
    whitespace. *)
Definition unsigned (s : string) : option N :=
  match s with
  | EmptyString => None
  | String c r =>
      match Json.digit_val c with
      | Some d =>
          match digit_run d r with
          | Some (n, rest) => if all_space rest then Some n else None
          | None => None
          end
      | None => None
      end
  end.

(** [int(s)] for a [str], in base 10; [None] stands for [ValueError].
    No bound is put on the number of digits. *)
Definition of_str (s : string) : option Z :=
  match lstrip s with
  | EmptyString => None
  | String c r =>
      if Ascii.eqb c "-" then
        match unsigned r with Some n => Some (- Z.of_N n)%Z | None => None end
      else if Ascii.eqb c "+" then
        match unsigned r with Some n => Some (Z.of_N n) | None => None end
      else
        match unsigned (String c r) with Some n => Some (Z.of_N n) | None => None end
  end.

(** What [int(x)] does: the integer, or which exception it raises. *)
Inductive result : Type :=
| Converted (z : Z)
| RaisesTypeError
| RaisesValueError.

Definition int (v : pyval) : result :=
  match v with
  | PInt z => Converted z
  | PBool b => Converted (if b then 1 else 0)%Z
  | PStr s => match of_str s with Some z => Converted z | None => RaisesValueError end
  | PNone | PList _ | PDict _ => RaisesTypeError
  end.

End PyInt.

(** [json.loads(s)] as a statement. *)
Definition json_loads (s : string) : M pyval :=
  match Json.loads s with
  | Json.Ok v => ret v
  | Json.Err Json.Invalid => raise JSONDecodeError
  | Json.Err _ => raise Unmodelled
  end.

(** [MSA_API.log_to_process_file]: the process id is not used. *)
Definition log_to_process_file (processId log_message : string) : M bool :=
  logger_info log_message ;;;
  ret true.

Section OrderCalls.

Variable FAILED : string.
Variable rand : nat -> N.
Variable transport : nat -> Request -> outcome Response.

(** [self.device_id], which [Order] inherits from [Device]. *)
Variable device_id : Z.

(** [Order.command_synchronizeOneOrMoreObjectsFromDevice]. *)
Definition command_synchronizeOneOrMoreObjectsFromDevice
    (mservice_uris : pyval) (timeout : option Z) : M unit :=
  set_self (set_action (Value (PStr "Command synchronize"))) ;;;
  set_self (set_path (api_path +:+ "/microservice/synchronize/"
                      +:+ Py.str_int device_id)) ;;;
  let params := PDict [(KStr "microServiceUris", mservice_uris)] in
  _call_post FAILED rand transport (Some params) (Some timeout).

(** [Order.command_call], with [timeout=300] where the caller passes
    none. *)
Definition command_call (command : string) (mode : Z) (params : pyval)
    (timeout : option (option Z)) : M unit :=
  let timeout := from_default (Some 300%Z) timeout in
  set_self (set_action (Value (PStr "Call command"))) ;;;
  set_self (set_path (api_path +:+ "/call/" +:+ Py.str_int device_id +:+ "/"
                      +:+ command +:+ "/" +:+ Py.str_int mode)) ;;;
  _call_post FAILED rand transport (Some params) (Some timeout).

(** [Order.command_objects_instances]. *)
Definition command_objects_instances (object_name : string) : M pyval :=
  set_self (set_action (Value (PStr "Get Microservice Instances"))) ;;;
  set_self (set_path (api_path +:+ "/objects/" +:+ Py.str_int device_id +:+ "/"
                      +:+ object_name)) ;;;
  _call_get FAILED rand transport None None ;;;
  this <- get_self ;;
  json_loads (content this).

(** [Order.command_objects_instances_by_id]. *)
Definition command_objects_instances_by_id (object_name object_id : string)
    : M pyval :=
  set_self (set_action (Value (PStr "Get Microservice Object Details"))) ;;;
  set_self (set_path (api_path +:+ "/objects/" +:+ Py.str_int device_id +:+ "/"
                      +:+ object_name +:+ "/" +:+ object_id)) ;;;
  _call_get FAILED rand transport None None ;;;
  this <- get_self ;;
  json_loads (content this).

(** [Order.command_get_deployment_settings_id]. The conversion by
    [int] is its last statement: which exception that raises, if any,
    is part of the result. *)
Definition command_get_deployment_settings_id : M PyInt.result :=
  set_self (set_action (Value (PStr "Get deployment settings ID"))) ;;;
  set_self (set_path ("/conf-profile/v1/device/" +:+ Py.str_int device_id)) ;;;
  _call_get FAILED rand transport None None ;;;
  this <- get_self ;;
  body <- json_loads (content this) ;;
  config_profile_device <- subscript body "ConfigProfileByDevice" ;;
  ret (PyInt.int config_profile_device).

End OrderCalls.

(** *** Notions used to state further properties *)

(** The method name a verb hands to [requests]. *)
Definition verb_name (c : call) : string :=
  match c with
  | POST _ _ => "POST"
  | GET _ _ => "GET"
  | PUT _ => "PUT"
  | DELETE => "DELETE"
  end.

(** The names of the headers [add_trace_headers] writes. *)
Definition trace_names : list string :=
  ["traceparent"; "X-B3-TraceId"; "X-B3-SpanId"].

(** The values of [new_params] on which the logging branch of
    [process_content] raises: those that ['TOKEN' in] does not accept,
    and the lists and strings in which it finds ['TOKEN'], since [del]
    then fails on them. *)
Definition refuses_logging (v : pyval) : bool :=
  match v with
  | PDict _ => false
  | PList items => existsb (is_str "TOKEN") items
  | PStr t => Py.str_contains "TOKEN" t
  | PNone | PBool _ | PInt _ => true
  end.

(** The client of an [Order] method once it has set its action and
    path. *)
Definition prepared (name p : string) (a : MSA_API) : MSA_API :=
  set_path p (set_action (Value (PStr name)) a).

(** More sample data. *)
Module Cases.

(** An answer whose body is not JSON. *)
Definition server_error : Response :=
  mkResponse 500 false "Internal Server Error".

(** An answer that carries the deployment settings id 7. *)
Definition profile : Response :=
  mkResponse 200 true
    ("{" +:+ Sample.quoted "ConfigProfileByDevice" +:+ ": 7}").

(** A network that is down. *)
Definition down : nat -> Request -> outcome Response :=
  fun _ _ => Raise (RequestException "connection refused").

(** A context that holds a trace id and no span id. *)
Definition half_traced : world :=
  put_context (<["TRACEID" := "00000000000000000000000000000001"]> (context Sample.start))
    Sample.start.

End Cases.

(** * Facts *)

(** Induction on values, with the induction hypothesis for every item
    of a list and of a dict. *)
Lemma pyval_nested_ind (P : pyval -> Prop) :
  P PNone ->
  (forall b, P (PBool b)) ->
  (forall z, P (PInt z)) ->
  (forall s, P (PStr s)) ->
  (forall l, Forall P l -> P (PList l)) ->
  (forall d, Forall (fun kv => P (snd kv)) d -> P (PDict d)) ->
  forall v, P v.
Proof.
  intros HNone HBool HInt HStr HList HDict.
  fix IH 1. intros [ |b|z|s|l|d].
  - exact HNone.
  - apply HBool.
  - apply HInt.
  - apply HStr.
  - apply HList. revert l. fix IHl 1. intros [|x l].
    + constructor.
    + constructor; [apply IH|apply IHl].
  - apply HDict. revert d. fix IHd 1. intros [|[k x] d].
    + constructor.
    + constructor; [apply IH|apply IHd].
Qed.

(** ** Strings *)

Module StrFacts.
Import Py.

Lemma sapp_cons c s t : String c s +:+ t = String c (s +:+ t).
Proof. reflexivity. Qed.

Lemma sapp_nil_l s : EmptyString +:+ s = s.
Proof. reflexivity. Qed.

Lemma sapp_nil_r s : s +:+ EmptyString = s.
Proof. induction s as [|c s IH]; [reflexivity|]. rewrite sapp_cons. by rewrite IH. Qed.

Lemma sapp_assoc s t u : (s +:+ t) +:+ u = s +:+ (t +:+ u).
Proof. induction s as [|c s IH]; [reflexivity|]. rewrite !sapp_cons. by rewrite IH. Qed.

Lemma slength_app s t : String.length (s +:+ t) = String.length s + String.length t.
Proof. induction s as [|c s IH]; [reflexivity|]. rewrite sapp_cons. simpl. by rewrite IH. Qed.

Lemma length_repeat_char c n : String.length (repeat_char c n) = n.
Proof. induction n as [|n IH]; simpl; congruence. Qed.

Lemma all_chars_app p s t :
  all_chars p (s +:+ t) = all_chars p s && all_chars p t.
Proof.
  induction s as [|c s IH]; [reflexivity|].
  rewrite sapp_cons. simpl. rewrite IH. by rewrite andb_assoc.
Qed.

Lemma all_chars_repeat p c n : p c = true -> all_chars p (repeat_char c n) = true.
Proof. intros Hc. induction n as [|n IH]; simpl; [done|]. by rewrite Hc, IH. Qed.

Lemma all_chars_impl (p q : ascii -> bool) s :
  (forall c, p c = true -> q c = true) -> all_chars p s = true -> all_chars q s = true.
Proof.
  intros Hpq. induction s as [|c s IH]; simpl; [done|].
  intros [Hc Hs]%andb_true_iff. rewrite (Hpq _ Hc). by rewrite IH.
Qed.

End StrFacts.

(** ** The formatting of integers *)

Module DigitFacts.
Import Py Json StrFacts.

Lemma digits_aux_app base fuel n acc :
  digits_aux base fuel n acc = digits_aux base fuel n EmptyString +:+ acc.
Proof.
  revert n acc. induction fuel as [|fuel IH]; intros n acc; simpl; [reflexivity|].
  destruct (n / base =? 0)%N; [reflexivity|].
  rewrite IH. rewrite (IH _ (String _ EmptyString)).
  by rewrite sapp_assoc.
Qed.

(** A number below [base ^ k] prints with at most [k] digits. *)
Lemma digits_aux_length base fuel n acc k :
  (2 <= base)%N -> (n < base ^ N.of_nat k)%N -> 1 <= k ->
  String.length (digits_aux base fuel n acc) <= k + String.length acc.
Proof.
  intros Hb. revert n acc k.
  induction fuel as [|fuel IH]; intros n acc k Hn Hk; simpl; [lia|].
  destruct (N.eqb_spec (n / base) 0) as [Hz|Hnz]; simpl; [lia|].
  destruct k as [|[|k]]; [lia| |].
  - exfalso. apply Hnz. apply N.div_small. simpl in Hn. lia.
  - specialize (IH (n / base)%N (String (digit_char (n mod base)) acc) (S k)).
    simpl in IH. etrans; [apply IH|]; [|lia|lia].
    apply N.Div0.div_lt_upper_bound.
    replace (N.of_nat (S (S k))) with (N.succ (N.of_nat (S k))) in Hn by lia.
    by rewrite N.pow_succ_r' in Hn.
Qed.

Lemma digit_char_lower_hex d : is_lower_hex (digit_char d) = true.
Proof.
  unfold digit_char.
  destruct d as [|p]; [reflexivity|].
  do 5 (try (destruct p as [p|p|]); try reflexivity).
Qed.

Lemma digits_aux_lower_hex base fuel n acc :
  all_chars is_lower_hex acc = true ->
  all_chars is_lower_hex (digits_aux base fuel n acc) = true.
Proof.
  revert n acc. induction fuel as [|fuel IH]; intros n acc Hacc; simpl; [done|].
  assert (all_chars is_lower_hex (String (digit_char (n mod base)) acc) = true) as H.
  { simpl. by rewrite digit_char_lower_hex, Hacc. }
  destruct (n / base =? 0)%N; [exact H|]. by apply IH.
Qed.

(** ['%0<k>x' % n] has exactly [k] characters, all lowercase
    hexadecimal, when [n] is below [16 ^ k]. *)
Lemma format_x_exact k n :
  1 <= k -> (n < 16 ^ N.of_nat k)%N ->
  String.length (format_x k n) = k /\ all_chars is_lower_hex (format_x k n) = true.
Proof.
  intros Hk Hn. unfold format_x, digits.
  pose proof (digits_aux_length 16 (S (N.to_nat (N.log2 n))) n EmptyString k
                ltac:(lia) Hn Hk) as Hlen.
  change (String.length EmptyString) with 0 in Hlen. split.
  - rewrite slength_app, length_repeat_char. lia.
  - rewrite all_chars_app, all_chars_repeat by reflexivity.
    by rewrite digits_aux_lower_hex.
Qed.

Lemma small_cases (d : N) :
  (d < 10)%N ->
  d = 0%N \/ d = 1%N \/ d = 2%N \/ d = 3%N \/ d = 4%N \/
  d = 5%N \/ d = 6%N \/ d = 7%N \/ d = 8%N \/ d = 9%N.
Proof. lia. Qed.

Ltac each_digit d H :=
  destruct (small_cases d H) as [->|[->|[->|[->|[->|[->|[->|[->|[->| ->]]]]]]]]].

Lemma digit_val_digit_char d : (d < 10)%N -> digit_val (digit_char d) = Some d.
Proof. intros H. each_digit d H; reflexivity. Qed.

Lemma fuel_enough n : (n < 2 ^ N.of_nat (S (N.to_nat (N.log2 n))))%N.
Proof.
  replace (N.of_nat (S (N.to_nat (N.log2 n)))) with (N.succ (N.log2 n)) by lia.
  destruct (N.eq_dec n 0%N) as [->|Hn]; [reflexivity|].
  apply N.log2_spec. lia.
Qed.

Lemma div_fuel n f : (n < 2 ^ N.of_nat (S f))%N -> (n / 10 < 2 ^ N.of_nat f)%N.
Proof.
  intros Hn. apply N.Div0.div_lt_upper_bound.
  replace (N.of_nat (S f)) with (N.succ (N.of_nat f)) in Hn by lia.
  rewrite N.pow_succ_r' in Hn. lia.
Qed.

(** Reading back the digits of [n] yields [n]. *)
Lemma read_digits_digits fuel n rest :
  (n < 2 ^ N.of_nat fuel)%N ->
  read_digits 0 (digits_aux 10 fuel n rest) = read_digits n rest.
Proof.
  revert n rest. induction fuel as [|fuel IH]; intros n rest Hn.
  - simpl in Hn. by replace n with 0%N by lia.
  - simpl digits_aux.
    assert (n mod 10 < 10)%N as Hd by (apply N.mod_lt; lia).
    destruct (N.eqb_spec (n / 10) 0) as [Hz|Hnz].
    + simpl. rewrite (digit_val_digit_char _ Hd).
      f_equal. apply N.div_small_iff in Hz; [|lia].
      rewrite N.mod_small by done. lia.
    + rewrite IH by by apply div_fuel.
      simpl. rewrite (digit_val_digit_char _ Hd).
      f_equal. pose proof (N.div_mod n 10 ltac:(lia)). lia.
Qed.

(** The first digit of a number is not [0], unless the number is. *)
Lemma digits_aux_head fuel n acc :
  (n < 2 ^ N.of_nat fuel)%N -> (0 < n)%N ->
  exists d s, digits_aux 10 fuel n acc = String (digit_char d) s
              /\ (0 < d < 10)%N.
Proof.
  revert n acc. induction fuel as [|fuel IH]; intros n acc Hn Hpos.
  - simpl in Hn. lia.
  - simpl digits_aux.
    destruct (N.eqb_spec (n / 10) 0) as [Hz|Hnz].
    + exists (n mod 10)%N, acc. split; [done|].
      apply N.div_small_iff in Hz; [|lia]. rewrite N.mod_small by done. lia.
    + apply IH; [by apply div_fuel|]. by apply N.neq_0_lt_0.
Qed.

Lemma read_digits_stop n rest :
  starts_with_digit rest = false -> read_digits n rest = (n, rest).
Proof.
  destruct rest as [|c r]; [done|]. simpl.
  by destruct (digit_val c).
Qed.

Lemma scan_nat_digits n rest :
  starts_with_digit rest = false ->
  scan_nat (digits 10 n +:+ rest) = Some (n, rest).
Proof.
  intros Hrest. unfold digits. rewrite <- digits_aux_app.
  destruct (N.eq_dec n 0%N) as [->|Hn]; [reflexivity|].
  destruct (digits_aux_head _ n rest (fuel_enough n) ltac:(lia))
    as (d & s & Hs & Hd).
  pose proof (read_digits_digits _ n rest (fuel_enough n)) as Hread.
  rewrite Hs in *. unfold scan_nat.
  simpl in Hread. rewrite digit_val_digit_char in * by lia.
  rewrite N.add_0_l in Hread.
  destruct d as [|p]; [lia|].
  by rewrite Hread, read_digits_stop.
Qed.

Lemma digits_head_any n rest :
  exists d s, digits 10 n +:+ rest = String (digit_char d) s /\ (d < 10)%N.
Proof.
  unfold digits. rewrite <- digits_aux_app.
  destruct (N.eq_dec n 0%N) as [->|Hn].
  - by exists 0%N, rest.
  - destruct (digits_aux_head _ n rest (fuel_enough n) ltac:(lia))
      as (d & s & Hs & Hd).
    exists d, s. split; [done|lia].
Qed.

Lemma scan_number_str_int z rest :
  number_end rest = true ->
  scan_number (str_int z +:+ rest) = Ok (PInt z, rest).
Proof.
  intros [Hd Hf]%andb_true_iff.
  apply negb_true_iff in Hd. apply negb_true_iff in Hf.
  unfold scan_number, str_int.
  destruct (Z.ltb_spec z 0) as [Hneg|Hpos].
  - rewrite sapp_cons. simpl. rewrite scan_nat_digits by done.
    rewrite Hf. do 3 f_equal. rewrite N2Z.inj_abs_N. lia.
  - destruct (digits_head_any (Z.abs_N z) rest) as (d & s & Hs & Hd10).
    pose proof (scan_nat_digits (Z.abs_N z) rest Hd) as Hscan.
    rewrite Hs in *.
    replace (Ascii.eqb (digit_char d) "-") with false
      by (each_digit d Hd10; reflexivity).
    rewrite Hscan, Hf. do 3 f_equal. rewrite N2Z.inj_abs_N. lia.
Qed.

End DigitFacts.

(** ** [json.dumps] and [json.loads] *)

Module JsonFacts.
Import Py Json StrFacts DigitFacts.

Lemma scanstring_escape_char c t :
  scanstring (escape_char c +:+ t) =
  match scanstring t with
  | Ok (u, r) => Ok (String c u, r)
  | Err e => Err e
  end.
Proof. destruct c as [[] [] [] [] [] [] [] []]; reflexivity. Qed.

(** Scanning the escaped text of [s] up to the closing quote gives
    [s] back. *)
Lemma scanstring_escape s rest :
  scanstring (escape s +:+ String dquote rest) = Ok (s, rest).
Proof.
  induction s as [|c s IH]; [reflexivity|].
  simpl escape. rewrite sapp_assoc, scanstring_escape_char. by rewrite IH.
Qed.

Lemma scan_encode_str s rest :
  scanstring (escape s +:+ String dquote EmptyString +:+ rest) = Ok (s, rest).
Proof. apply scanstring_escape. Qed.

Lemma value_start_facts c :
  value_start c = true ->
  is_ws c = false /\ Ascii.eqb c "]" = false /\ Ascii.eqb c "}" = false.
Proof. destruct c as [[] [] [] [] [] [] [] []]; vm_compute; intuition congruence. Qed.

Lemma digit_char_start d : (d < 10)%N -> value_start (digit_char d) = true.
Proof. intros H. each_digit d H; reflexivity. Qed.

Lemma encode_head v rest :
  exists c s, encode v +:+ rest = String c s /\ value_start c = true.
Proof.
  destruct v as [ |[]|z|s|l|d]; simpl encode; try (eexists _, _; split; [reflexivity|reflexivity]).
  unfold str_int. destruct (z <? 0)%Z.
  - eexists _, _; split; reflexivity.
  - destruct (digits_head_any (Z.abs_N z) rest) as (d & s & Hs & Hd).
    exists (digit_char d), s. split; [done|]. by apply digit_char_start.
Qed.

Lemma skip_ws_start c s : value_start c = true -> skip_ws (String c s) = String c s.
Proof. intros H. simpl. by destruct (value_start_facts c H) as (-> & _). Qed.

Lemma skip_ws_encode v rest : skip_ws (encode v +:+ rest) = encode v +:+ rest.
Proof.
  destruct (encode_head v rest) as (c & s & -> & Hc). by apply skip_ws_start.
Qed.

(** Unfoldings of the scanner. *)
Lemma scan_array_S f acc s :
  scan_array (S f) acc s =
  match scan_once f s with
  | Ok (v, r) =>
      match skip_ws r with
      | String c r' =>
          if Ascii.eqb c "]" then Ok (PList (acc ++ [v]), r')
          else if Ascii.eqb c "," then scan_array f (acc ++ [v]) (skip_ws r')
          else Err Invalid
      | EmptyString => Err Invalid
      end
  | Err e => Err e
  end.
Proof. reflexivity. Qed.

Lemma scan_object_S f acc s :
  scan_object (S f) acc s =
  match scanstring s with
  | Ok (k, r) =>
      match skip_ws r with
      | String c r1 =>
          if Ascii.eqb c ":" then
            match scan_once f (skip_ws r1) with
            | Ok (v, r2) =>
                match skip_ws r2 with
                | String c2 r3 =>
                    if Ascii.eqb c2 "}" then
                      Ok (PDict (Dict.set (KStr k) v acc), r3)
                    else if Ascii.eqb c2 "," then
                      match skip_ws r3 with
                      | String c3 r4 =>
                          if Ascii.eqb c3 dquote
                          then scan_object f (Dict.set (KStr k) v acc) r4
                          else Err Invalid
                      | EmptyString => Err Invalid
                      end
                    else Err Invalid
                | EmptyString => Err Invalid
                end
            | Err e => Err e
            end
          else Err Invalid
      | EmptyString => Err Invalid
      end
  | Err e => Err e
  end.
Proof. reflexivity. Qed.

Lemma scan_once_str f r :
  scan_once (S f) (String dquote r) =
  match scanstring r with
  | Ok (t, rest) => Ok (PStr t, rest)
  | Err e => Err e
  end.
Proof. reflexivity. Qed.

Lemma scan_once_array f r :
  scan_once (S f) (String "[" r) =
  match skip_ws r with
  | String c' r' =>
      if Ascii.eqb c' "]" then Ok (PList [], r')
      else scan_array f [] (String c' r')
  | EmptyString => Err Invalid
  end.
Proof. reflexivity. Qed.

Lemma scan_once_object f r :
  scan_once (S f) (String "{" r) =
  match skip_ws r with
  | String c' r' =>
      if Ascii.eqb c' "}" then Ok (PDict [], r')
      else if Ascii.eqb c' dquote then scan_object f [] r'
      else Err Invalid
  | EmptyString => Err Invalid
  end.
Proof. reflexivity. Qed.

Lemma scan_once_digit f d r :
  (d < 10)%N ->
  scan_once (S f) (String (digit_char d) r) = scan_number (String (digit_char d) r).
Proof. intros H. each_digit d H; reflexivity. Qed.

Lemma scan_once_minus f r :
  scan_once (S f) (String "-" r) = scan_number (String "-" r).
Proof. reflexivity. Qed.

Lemma scan_once_int f z rest :
  number_end rest = true ->
  scan_once (S f) (str_int z +:+ rest) = Ok (PInt z, rest).
Proof.
  intros Hrest. rewrite <- (scan_number_str_int z rest Hrest).
  unfold str_int. destruct (z <? 0)%Z.
  - rewrite sapp_cons. apply scan_once_minus.
  - destruct (digits_head_any (Z.abs_N z) rest) as (d & s & -> & Hd).
    by apply scan_once_digit.
Qed.

Lemma join_cons2 sep p q l :
  join sep (p :: q :: l) = p +:+ sep +:+ join sep (q :: l).
Proof. reflexivity. Qed.

Lemma join_head l t :
  l <> [] ->
  exists c s, join ", " (map encode l) +:+ t = String c s /\ value_start c = true.
Proof.
  destruct l as [|y [|z l]]; [done| |]; intros _.
  - apply encode_head.
  - rewrite !map_cons, join_cons2, sapp_assoc. apply encode_head.
Qed.

Lemma scan_array_items l :
  Forall scans l -> l <> [] ->
  forall fuel acc rest,
    fold_right (fun x a => S (need x + a)) 0 l <= fuel ->
    scan_array fuel acc (join ", " (map encode l) +:+ "]" +:+ rest)
    = Ok (PList (acc ++ map normalize l), rest).
Proof.
  induction 1 as [|x l Hx Hl IH]; [done|]. intros _ fuel acc rest Hfuel.
  simpl in Hfuel. destruct fuel as [|f]; [lia|].
  rewrite scan_array_S. destruct l as [|y l].
  - simpl join. rewrite (Hx f) by (done || lia). by rewrite sapp_cons.
  - rewrite !map_cons, join_cons2, !sapp_assoc.
    rewrite (Hx f) by (done || simpl in *; lia).
    change (", " +:+ ?t) with (String "," (String " " t)).
    change (skip_ws (String "," ?s)) with (String "," s).
    cbv beta iota. change (Ascii.eqb "," "]") with false.
    change (Ascii.eqb "," ",") with true. cbv iota.
    change (skip_ws (String " " ?s)) with (skip_ws s).
    rewrite <- map_cons.
    destruct (join_head (y :: l) ("]" +:+ rest) ltac:(done)) as (c & s' & Hs' & Hc).
    rewrite Hs', skip_ws_start, <- Hs' by done.
    rewrite IH; [|done|simpl in *; lia].
    by rewrite <- List.app_assoc.
Qed.

Lemma encode_dict d rest :
  encode (PDict d) +:+ rest = String "{" (join ", " (map item d) +:+ "}" +:+ rest).
Proof.
  change (encode (PDict d)) with ("{" +:+ join ", " (map item d) +:+ "}").
  by rewrite !sapp_assoc.
Qed.

Lemma encode_list l rest :
  encode (PList l) +:+ rest = String "[" (join ", " (map encode l) +:+ "]" +:+ rest).
Proof.
  change (encode (PList l)) with ("[" +:+ join ", " (map encode l) +:+ "]").
  by rewrite !sapp_assoc.
Qed.

Lemma join_map_cons2 {A} (f : A -> string) sep x y l :
  join sep (map f (x :: y :: l)) = f x +:+ sep +:+ join sep (map f (y :: l)).
Proof. reflexivity. Qed.

Lemma item_app kv t :
  item kv +:+ t =
  String dquote (escape (key_str (fst kv))
                 +:+ String dquote (String ":" (String " " (encode (snd kv) +:+ t)))).
Proof.
  unfold item, encode_str. rewrite !sapp_cons, !sapp_assoc. reflexivity.
Qed.

Lemma join_item_head d t :
  d <> [] -> exists tail, join ", " (map item d) +:+ t = String dquote tail.
Proof.
  destruct d as [|kv [|kv2 d]]; [done| |]; intros _.
  - simpl join. rewrite item_app. eauto.
  - rewrite !map_cons, join_cons2, sapp_assoc, item_app. eauto.
Qed.

Lemma scan_object_items d :
  Forall (fun kv => scans (snd kv)) d -> d <> [] ->
  forall fuel acc rest tail,
    fold_right (fun kv a => S (need (snd kv) + a)) 0 d <= fuel ->
    join ", " (map item d) +:+ "}" +:+ rest = String dquote tail ->
    scan_object fuel acc tail = Ok (PDict (fold_left step d acc), rest).
Proof.
  induction 1 as [|kv d Hkv Hd IH]; [done|].
  intros _ fuel acc rest tail Hfuel Htail.
  simpl in Hfuel. destruct fuel as [|f]; [lia|].
  rewrite scan_object_S. destruct d as [|kv2 d].
  - simpl join in Htail. rewrite item_app in Htail.
    injection Htail as <-.
    rewrite scanstring_escape.
    change (skip_ws (String ":" ?s)) with (String ":" s). cbv beta iota.
    change (Ascii.eqb ":" ":") with true. cbv iota.
    change (skip_ws (String " " ?s)) with (skip_ws s).
    rewrite skip_ws_encode, (Hkv f) by (done || lia).
    reflexivity.
  - rewrite join_map_cons2, !sapp_assoc, item_app in Htail.
    remember (join ", " (map item (kv2 :: d)) +:+ "}" +:+ rest) as J eqn:HJ.
    injection Htail as <-.
    rewrite scanstring_escape.
    change (skip_ws (String ":" ?s)) with (String ":" s). cbv beta iota.
    change (Ascii.eqb ":" ":") with true. cbv iota.
    change (skip_ws (String " " ?s)) with (skip_ws s).
    destruct (join_item_head (kv2 :: d) ("}" +:+ rest) ltac:(done)) as [tail2 Ht2].
    rewrite <- HJ in Ht2.
    rewrite skip_ws_encode, (Hkv f); [|simpl in *; lia|by rewrite Ht2].
    change (", " +:+ ?t) with (String "," (String " " t)).
    change (skip_ws (String "," ?s)) with (String "," s). cbv beta iota.
    change (Ascii.eqb "," "}") with false.
    change (Ascii.eqb "," ",") with true. cbv iota.
    change (skip_ws (String " " ?s)) with (skip_ws s).
    rewrite Ht2.
    change (skip_ws (String dquote ?s)) with (String dquote s). cbv beta iota.
    change (Ascii.eqb dquote dquote) with true. cbv iota.
    rewrite (IH ltac:(done) f _ rest tail2); [done|simpl in *; lia|by rewrite <- Ht2, HJ].
Qed.

(** Scanning the text of a value yields the value as [loads] sees
    it, and stops where the text stops. *)
Lemma scan_encode v : scans v.
Proof.
  induction v as [ |b|z|s|l IHl|d IHd] using pyval_nested_ind;
    intros fuel rest Hfuel Hrest;
    (destruct fuel as [|f]; [simpl in Hfuel; lia|]).
  - reflexivity.
  - by destruct b.
  - simpl encode. by apply scan_once_int.
  - simpl encode. unfold encode_str. rewrite sapp_cons, scan_once_str.
    rewrite sapp_assoc. by rewrite scan_encode_str.
  - rewrite encode_list, scan_once_array.
    destruct l as [|x l]; [reflexivity|].
    destruct (join_head (x :: l) ("]" +:+ rest) ltac:(done)) as (c & s & Hs & Hc).
    rewrite Hs. rewrite skip_ws_start by done.
    destruct (value_start_facts c Hc) as (_ & -> & _).
    rewrite <- Hs. rewrite scan_array_items; [done|done|done|].
    simpl in *. lia.
  - rewrite encode_dict, scan_once_object.
    destruct d as [|kv d]; [reflexivity|].
    destruct (join_item_head (kv :: d) ("}" +:+ rest) ltac:(done)) as [tail Ht].
    rewrite Ht.
    change (skip_ws (String dquote ?s)) with (String dquote s). cbv beta iota.
    change (Ascii.eqb dquote "}") with false.
    change (Ascii.eqb dquote dquote) with true. cbv iota.
    rewrite (scan_object_items (kv :: d) IHd ltac:(done) f [] rest tail); [done| |done].
    simpl in *. lia.
Qed.

(** *** The fuel [loads] provides is enough *)

Lemma str_int_length z : 1 <= String.length (str_int z).
Proof.
  unfold str_int. destruct (z <? 0)%Z; simpl; [lia|].
  destruct (digits_head_any (Z.abs_N z) EmptyString) as (d & s & Hs & _).
  rewrite sapp_nil_r in Hs. rewrite Hs. simpl. lia.
Qed.

Lemma need_le_length v : need v <= String.length (encode v).
Proof.
  induction v as [ |b|z|s|l IHl|d IHd] using pyval_nested_ind.
  - simpl. lia.
  - destruct b; simpl; lia.
  - apply str_int_length.
  - simpl. lia.
  - change (encode (PList l)) with ("[" +:+ join ", " (map encode l) +:+ "]").
    rewrite !slength_app. simpl String.length. simpl need.
    enough (fold_right (fun x acc => S (need x + acc)) 0 l
            <= 1 + String.length (join ", " (map encode l))) by lia.
    induction IHl as [|x l Hx Hl IH]; [simpl; lia|].
    destruct l as [|y l].
    + simpl. lia.
    + rewrite join_map_cons2, !slength_app.
      change (fold_right _ 0 (x :: y :: l))
        with (S (need x + fold_right (fun x acc => S (need x + acc)) 0 (y :: l))).
      change (String.length ", ") with 2. lia.
  - change (encode (PDict d)) with ("{" +:+ join ", " (map item d) +:+ "}").
    rewrite !slength_app. simpl String.length. simpl need.
    enough (fold_right (fun kv acc => S (need (snd kv) + acc)) 0 d
            <= 1 + String.length (join ", " (map item d))) by lia.
    assert (forall kv, String.length (encode (snd kv)) < String.length (item kv)) as Hitem.
    { intros kv. unfold item, encode_str. rewrite !slength_app. simpl. lia. }
    induction IHd as [|x l Hx Hl IH]; [simpl; lia|].
    pose proof (Hitem x).
    destruct l as [|y l].
    + change (join ", " (map item [x])) with (item x).
      change (fold_right _ 0 [x]) with (S (need (snd x) + 0)). lia.
    + rewrite join_map_cons2, !slength_app.
      change (fold_right _ 0 (x :: y :: l))
        with (S (need (snd x) + fold_right (fun kv acc => S (need (snd kv) + acc)) 0 (y :: l))).
      change (String.length ", ") with 2. lia.
Qed.

(** [json.loads(json.dumps(v))] returns, and returns [v] as
    normalized. *)
Lemma loads_dumps v : loads (dumps v) = Ok (normalize v).
Proof.
  unfold loads, dumps.
  pose proof (skip_ws_encode v EmptyString) as Hws.
  pose proof (scan_encode v (S (2 * String.length (encode v))) EmptyString) as Hscan.
  rewrite sapp_nil_r in Hws, Hscan.
  rewrite Hws, Hscan; [done| |done].
  pose proof (need_le_length v). lia.
Qed.

(** *** Values that [loads] returns unchanged *)

Lemma set_fresh k v acc :
  k ∉ Dict.keys acc -> Dict.set k v acc = acc ++ [(k, v)].
Proof.
  induction acc as [|[k' v'] acc IH]; [done|]. simpl.
  intros Hk. apply not_elem_of_cons in Hk as [Hne Hk].
  destruct (decide (k = k')); [done|]. by rewrite IH.
Qed.

Lemma fold_step_fresh d :
  Forall (fun kv => normalize (snd kv) = snd kv /\ is_str_key (fst kv) = true) d ->
  forall acc,
    NoDup (Dict.keys acc ++ Dict.keys d) ->
    fold_left step d acc = acc ++ d.
Proof.
  induction 1 as [|[k v] d [Hv Hk] Hd IH]; intros acc Hnd.
  - by rewrite List.app_nil_r.
  - simpl in Hv, Hk. destruct k as [s|z]; [|done].
    change (fold_left step ((KStr s, v) :: d) acc)
      with (fold_left step d (Dict.set (KStr s) (normalize v) acc)).
    rewrite Hv. simpl in Hnd.
    rewrite set_fresh.
    + rewrite IH.
      * by rewrite <- List.app_assoc.
      * unfold Dict.keys in *. rewrite map_app, <- List.app_assoc. exact Hnd.
    + apply NoDup_app in Hnd as (_ & Hdisj & _).
      intros Hin. apply (Hdisj _ Hin). left.
Qed.

Lemma normalize_id v : str_keys v = true -> well_formed v -> normalize v = v.
Proof.
  induction v as [ |b|z|s|l IHl|d IHd] using pyval_nested_ind; try done.
  - intros Hk Hwf. simpl. f_equal.
    induction IHl as [|x l Hx Hl IH]; [done|].
    simpl in Hk, Hwf. apply andb_true_iff in Hk as [Hk1 Hk2].
    destruct Hwf as [Hw1 Hw2]. simpl. rewrite Hx by done.
    f_equal. by apply IH.
  - intros Hk [Hnd Hwf]. simpl normalize. f_equal.
    change (fold_left step d [] = d).
    rewrite fold_step_fresh; [done| |done].
    clear Hnd. induction IHd as [|[k x] l Hx Hl IH]; [done|].
    simpl in Hk, Hwf. apply andb_true_iff in Hk as [Hk1 Hk2].
    apply andb_true_iff in Hk1 as [Hk0 Hk1].
    destruct Hwf as [Hw1 Hw2]. constructor; [|by apply IH].
    split; [by apply Hx|done].
Qed.

(** *** The text of a value stays on one line *)

Lemma escape_char_plain c : all_chars is_plain (escape_char c) = true.
Proof. destruct c as [[] [] [] [] [] [] [] []]; reflexivity. Qed.

Lemma escape_plain s : all_chars is_plain (escape s) = true.
Proof.
  induction s as [|c s IH]; [done|]. simpl.
  by rewrite all_chars_app, escape_char_plain, IH.
Qed.

Lemma encode_str_plain s : all_chars is_plain (encode_str s) = true.
Proof.
  unfold encode_str. simpl. by rewrite all_chars_app, escape_plain.
Qed.

Lemma lower_hex_plain c : is_lower_hex c = true -> is_plain c = true.
Proof. destruct c as [[] [] [] [] [] [] [] []]; vm_compute; congruence. Qed.

Lemma str_int_plain z : all_chars is_plain (str_int z) = true.
Proof.
  assert (forall n, all_chars is_plain (digits 10 n) = true) as Hd.
  { intros n. apply (all_chars_impl is_lower_hex); [apply lower_hex_plain|].
    by apply digits_aux_lower_hex. }
  unfold str_int. destruct (z <? 0)%Z; simpl; by rewrite Hd.
Qed.

Lemma join_plain parts :
  Forall (fun p => all_chars is_plain p = true) parts ->
  all_chars is_plain (join ", " parts) = true.
Proof.
  induction 1 as [|p l Hp Hl IH]; [done|].
  destruct l as [|q l]; [done|].
  change (join ", " (p :: q :: l)) with (p +:+ ", " +:+ join ", " (q :: l)).
  by rewrite !all_chars_app, Hp, IH.
Qed.

Lemma encode_plain v : all_chars is_plain (encode v) = true.
Proof.
  induction v as [ |b|z|s|l IHl|d IHd] using pyval_nested_ind.
  - done.
  - by destruct b.
  - apply str_int_plain.
  - apply encode_str_plain.
  - change (encode (PList l)) with ("[" +:+ join ", " (map encode l) +:+ "]").
    rewrite !all_chars_app, join_plain; [done|].
    by apply Forall_map.
  - change (encode (PDict d)) with ("{" +:+ join ", " (map item d) +:+ "}").
    rewrite !all_chars_app, join_plain; [done|].
    apply Forall_map. eapply Forall_impl; [exact IHd|].
    intros kv Hkv. unfold item.
    by rewrite !all_chars_app, encode_str_plain, Hkv.
Qed.

Lemma dumps_one_line v : all_chars not_newline (dumps v) = true.
Proof.
  apply (all_chars_impl is_plain); [|apply encode_plain].
  intros c. destruct c as [[] [] [] [] [] [] [] []]; vm_compute; congruence.
Qed.

Lemma keys_set k v d :
  Dict.keys (Dict.set k v d) = if Dict.has k d then Dict.keys d else Dict.keys d ++ [k].
Proof.
  unfold Dict.has. induction d as [|[k' v'] d IH]; [done|]. simpl.
  destruct (decide (k = k')); [done|]. simpl. rewrite IH.
  by destruct (Dict.get k d).
Qed.

Lemma get_None_keys k d : Dict.get k d = None -> k ∉ Dict.keys d.
Proof.
  induction d as [|[k' v'] d IH]; simpl; [intros _; apply not_elem_of_nil|].
  destruct (decide (k = k')); [done|]. intros H.
  apply not_elem_of_cons. auto.
Qed.

Lemma normal_list l : normal (PList l) <-> Forall normal l.
Proof.
  unfold normal. induction l as [|x l IH]; simpl.
  - split; [constructor|done].
  - rewrite andb_true_iff, Forall_cons. simpl in IH. tauto.
Qed.

Lemma normal_dict d :
  normal (PDict d) <->
  NoDup (Dict.keys d) /\ Forall (fun kv => is_str_key (fst kv) = true /\ normal (snd kv)) d.
Proof.
  unfold normal. simpl.
  enough (forallb (fun kv => is_str_key kv.1 && str_keys kv.2) d = true
          /\ fold_right (fun kv acc => well_formed kv.2 /\ acc) True d
          <-> Forall (fun kv => is_str_key kv.1 = true
                                /\ str_keys kv.2 = true /\ well_formed kv.2) d) by tauto.
  induction d as [|x d IH]; simpl.
  - split; [constructor|done].
  - rewrite !andb_true_iff, Forall_cons. tauto.
Qed.

Lemma normal_set k v d :
  normal (PDict d) -> normal v -> normal (PDict (Dict.set (KStr k) v d)).
Proof.
  rewrite !normal_dict. intros [Hnd Hall] Hv. split.
  - rewrite keys_set. unfold Dict.has.
    destruct (Dict.get (KStr k) d) eqn:Hget; [done|].
    apply NoDup_app. split; [done|]. split; [|apply NoDup_singleton].
    intros x Hx ->%list_elem_of_singleton. by apply get_None_keys in Hget.
  - clear Hnd. induction Hall as [|[k' v'] d Hkv Hd IH]; simpl.
    + constructor; [by split|constructor].
    + destruct (decide (KStr k = k')) as [<-|]; constructor; try done.
Qed.

Lemma normal_get k d v : normal (PDict d) -> Dict.get k d = Some v -> normal v.
Proof.
  rewrite normal_dict. intros [_ Hall]. induction Hall as [|[k' v'] d Hkv Hd IH]; [done|].
  simpl. destruct (decide (k = k')); [|done]. intros [= <-]. apply Hkv.
Qed.

Lemma scan_once_S f c r :
  scan_once (S f) (String c r) =
  if Ascii.eqb c dquote then
    match scanstring r with
    | Ok (t, rest) => Ok (PStr t, rest)
    | Err e => Err e
    end
  else if Ascii.eqb c "{" then
    match skip_ws r with
    | String c' r' =>
        if Ascii.eqb c' "}" then Ok (PDict [], r')
        else if Ascii.eqb c' dquote then scan_object f [] r'
        else Err Invalid
    | EmptyString => Err Invalid
    end
  else if Ascii.eqb c "[" then
    match skip_ws r with
    | String c' r' =>
        if Ascii.eqb c' "]" then Ok (PList [], r')
        else scan_array f [] (String c' r')
    | EmptyString => Err Invalid
    end
  else if starts_with "null" (String c r) then Ok (PNone, drop 4 (String c r))
  else if starts_with "true" (String c r) then Ok (PBool true, drop 4 (String c r))
  else if starts_with "false" (String c r) then Ok (PBool false, drop 5 (String c r))
  else scan_number (String c r).
Proof. reflexivity. Qed.

Lemma scan_number_normal s v r : scan_number s = Ok (v, r) -> normal v.
Proof.
  unfold scan_number. intros H. repeat case_match; simplify_eq; by split.
Qed.

(** Whatever the scanner returns has [str] keys only, and no key
    twice in a dict. *)
Lemma scan_normal fuel :
  (forall s v r, scan_once fuel s = Ok (v, r) -> normal v)
  /\ (forall acc s v r,
        scan_array fuel acc s = Ok (v, r) -> Forall normal acc -> normal v)
  /\ (forall acc s v r,
        scan_object fuel acc s = Ok (v, r) -> normal (PDict acc) -> normal v).
Proof.
  induction fuel as [|f (IHonce & IHarr & IHobj)]; [by repeat split|].
  assert (normal (PDict [])) as Hempty by (split; [done|split; [constructor|done]]).
  split; [|split].
  - intros [|c r] v rest; [done|]. rewrite scan_once_S. intros H.
    repeat case_match; simplify_eq;
      first [ done
            | by split
            | by eapply IHobj
            | by eapply IHarr; [done|constructor]
            | by eapply scan_number_normal ].
  - intros acc s v rest. rewrite scan_array_S. intros H Hacc.
    repeat case_match; simplify_eq.
    + apply normal_list, Forall_app. split; [done|].
      constructor; [by eapply IHonce|constructor].
    + eapply IHarr; [done|]. apply Forall_app. split; [done|].
      constructor; [by eapply IHonce|constructor].
  - intros acc s v rest. rewrite scan_object_S. intros H Hacc.
    repeat case_match; simplify_eq.
    + apply normal_set; [done|]. by eapply IHonce.
    + eapply IHobj; [done|]. apply normal_set; [done|]. by eapply IHonce.
Qed.

Lemma loads_normal s v : loads s = Ok v -> normal v.
Proof.
  unfold loads. intros H. repeat case_match; simplify_eq.
  by eapply (proj1 (scan_normal _)).
Qed.

Lemma loads_normalize s v : loads s = Ok v -> normalize v = v.
Proof. intros [Hk Hwf]%loads_normal. by apply normalize_id. Qed.

Lemma skip_ws_length s : String.length (skip_ws s) <= String.length s.
Proof.
  induction s as [|c s IH]; simpl; [lia|]. destruct (is_ws c); simpl; lia.
Qed.

Lemma skip_ws_cons s c r :
  skip_ws s = String c r -> String.length r < String.length s.
Proof. intros H. pose proof (skip_ws_length s). rewrite H in *. simpl in *. lia. Qed.

Lemma scanstring_progress n :
  forall s, String.length s <= n ->
    scanstring s <> Err Exhausted
    /\ forall t r, scanstring s = Ok (t, r) -> String.length r < String.length s.
Proof.
  induction n as [|n IH]; intros [|c s] Hn; simpl in Hn; try (split; [done|done]); [lia|].
  assert (forall x, String.length x <= String.length s ->
            scanstring x <> Err Exhausted
            /\ forall t r, scanstring x = Ok (t, r) -> String.length r < String.length s + 1)
    as Hsub.
  { intros x Hx. destruct (IH x ltac:(lia)) as [H1 H2]. split; [done|].
    intros t r Hr. apply H2 in Hr. lia. }
  simpl. split.
  - intros H. repeat case_match; simplify_eq;
      match goal with
      | E : scanstring ?x = Err Exhausted |- _ =>
          apply (proj1 (Hsub x ltac:(simpl; lia))); exact E
      end.
  - intros t r H. repeat case_match; simplify_eq; simpl; try lia;
      match goal with
      | E : scanstring ?x = Ok _ |- _ =>
          apply (proj2 (Hsub x ltac:(simpl; lia))) in E; simpl in *; lia
      end.
Qed.

Lemma scanstring_not_exhausted s : scanstring s <> Err Exhausted.
Proof. by apply (scanstring_progress (String.length s)). Qed.

Lemma scanstring_length s t r :
  scanstring s = Ok (t, r) -> String.length r < String.length s.
Proof. by apply (scanstring_progress (String.length s)). Qed.

Lemma read_digits_length acc s :
  String.length (snd (read_digits acc s)) <= String.length s.
Proof.
  revert acc. induction s as [|c s IH]; intros acc; simpl; [lia|].
  destruct (digit_val c); simpl; [|lia]. specialize (IH (acc * 10 + n)%N). lia.
Qed.

Lemma scan_nat_length s n r :
  scan_nat s = Some (n, r) -> String.length r < String.length s.
Proof.
  destruct s as [|c s]; [done|]. simpl. intros H.
  repeat case_match; simplify_eq; simpl; try lia;
    match goal with
    | E : read_digits ?a ?x = _ |- _ =>
        pose proof (read_digits_length a x) as Hlen; rewrite E in Hlen; simpl in Hlen; lia
    end.
Qed.

Lemma scan_number_progress s :
  scan_number s <> Err Exhausted
  /\ forall v r, scan_number s = Ok (v, r) -> String.length r < String.length s.
Proof.
  unfold scan_number. split.
  - intros H. repeat case_match; simplify_eq.
  - intros v r H. repeat case_match; simplify_eq;
      repeat match goal with
             | E : scan_nat _ = Some _ |- _ => apply scan_nat_length in E
             end; simpl in *; lia.
Qed.

Lemma scan_number_length s v r :
  scan_number s = Ok (v, r) -> String.length r < String.length s.
Proof. apply scan_number_progress. Qed.

Lemma drop_length n s : String.length (drop n s) = String.length s - n.
Proof.
  revert s. induction n as [|n IH]; intros [|c s]; simpl; try lia. apply IH.
Qed.

Ltac length_facts :=
  repeat match goal with
         | E : skip_ws _ = String _ _ |- _ => apply skip_ws_cons in E
         | E : scanstring _ = Ok _ |- _ => apply scanstring_length in E
         | E : scan_number _ = Ok _ |- _ => apply scan_number_length in E
         end.

(** Every value the scanner returns has cost it a character. *)
Lemma scan_progress fuel :
  (forall s v r, scan_once fuel s = Ok (v, r) -> String.length r < String.length s)
  /\ (forall acc s v r,
        scan_array fuel acc s = Ok (v, r) -> String.length r < String.length s)
  /\ (forall acc s v r,
        scan_object fuel acc s = Ok (v, r) -> String.length r < String.length s).
Proof.
  induction fuel as [|f (IHonce & IHarr & IHobj)]; [by repeat split|].
  split; [|split].
  - intros [|c r] v rest; [done|]. rewrite scan_once_S.
    pose proof (drop_length 4 (String c r)) as Hd4.
    pose proof (drop_length 5 (String c r)) as Hd5.
    remember (drop 4 (String c r)) as d4 eqn:E4.
    remember (drop 5 (String c r)) as d5 eqn:E5. clear E4 E5.
    intros H.
    repeat case_match; simplify_eq;
      repeat match goal with
             | E : scan_array _ _ _ = Ok _ |- _ => apply IHarr in E
             | E : scan_object _ _ _ = Ok _ |- _ => apply IHobj in E
             end;
      length_facts; simpl in *; lia.
  - intros acc s v rest. rewrite scan_array_S. intros H.
    repeat case_match; simplify_eq;
      repeat match goal with
             | E : scan_array _ _ (skip_ws ?x) = Ok _ |- _ =>
                 apply IHarr in E; pose proof (skip_ws_length x)
             | E : scan_once _ _ = Ok _ |- _ => apply IHonce in E
             end;
      length_facts; simpl in *; lia.
  - intros acc s v rest. rewrite scan_object_S. intros H.
    repeat case_match; simplify_eq;
      repeat match goal with
             | E : scan_object _ _ _ = Ok _ |- _ => apply IHobj in E
             | E : scan_once _ (skip_ws ?x) = Ok _ |- _ =>
                 apply IHonce in E; pose proof (skip_ws_length x)
             end;
      length_facts; simpl in *; lia.
Qed.

(** The scanner does not run out of fuel when it has two rounds per
    character of the text. *)
Lemma scan_fuel fuel :
  (forall s, 2 * String.length s + 1 <= fuel -> scan_once fuel s <> Err Exhausted)
  /\ (forall acc s, 2 * String.length s + 2 <= fuel ->
        scan_array fuel acc s <> Err Exhausted)
  /\ (forall acc s, 2 * String.length s + 2 <= fuel ->
        scan_object fuel acc s <> Err Exhausted).
Proof.
  induction fuel as [|f (IHonce & IHarr & IHobj)].
  { repeat split; intros; lia. }
  destruct (scan_progress f) as (Ponce & Parr & Pobj).
  split; [|split].
  - intros [|c r] Hf; [done|]. rewrite scan_once_S. simpl in Hf. intros H.
    repeat case_match; simplify_eq;
      try (by eapply scanstring_not_exhausted);
      try (by eapply (proj1 (scan_number_progress _)));
      length_facts;
      [ eapply IHobj; [|done] | eapply IHarr; [|done] ]; simpl in *; lia.
  - intros acc s Hf. rewrite scan_array_S. intros H.
    repeat case_match; simplify_eq.
    + match goal with
      | E : scan_array _ _ (skip_ws ?x) = _, E' : scan_once _ _ = Ok _ |- _ =>
          pose proof (skip_ws_length x); apply Ponce in E'; length_facts;
          eapply IHarr; [|exact E]; simpl in *; lia
      end.
    + eapply IHonce; [|done]. lia.
  - intros acc s Hf. rewrite scan_object_S. intros H.
    repeat case_match; simplify_eq;
      try (by eapply scanstring_not_exhausted).
    + match goal with
      | E : scan_object _ _ _ = _, E' : scan_once _ (skip_ws ?x) = Ok _ |- _ =>
          pose proof (skip_ws_length x); apply Ponce in E'; length_facts;
          eapply IHobj; [|exact E]; simpl in *; lia
      end.
    + match goal with
      | E : scan_once _ (skip_ws ?x) = Err _ |- _ =>
          pose proof (skip_ws_length x); length_facts;
          eapply IHonce; [|exact E]; simpl in *; lia
      end.
Qed.

(** [loads] never reports [Exhausted]: it returns a value or rejects
    the text. *)
Lemma loads_not_exhausted s : loads s <> Err Exhausted.
Proof.
  unfold loads. intros H. repeat case_match; simplify_eq.
  eapply (proj1 (scan_fuel _)); [|done].
  pose proof (skip_ws_length s). lia.
Qed.

End JsonFacts.

(** ** The client *)

Module ClientFacts.
Import Py Json StrFacts DigitFacts JsonFacts.

(** One step of a monadic computation. *)
Ltac mstep :=
  repeat (progress (cbv beta iota zeta;
                    cbn [context self heap logged stdout draws wire fst snd
                         put_self put_context put_heap put_logged put_stdout
                         put_draws put_wire from_default];
                    try rewrite lookup_insert_eq;
                    try rewrite lookup_insert_ne by done)).

Section Runtime.

Variable FAILED : string.
Variable rand : nat -> N.
Variable transport : nat -> Request -> outcome Response.

(** *** The trace *)

Lemma settle_same w : same_but_trace w (settle_trace rand w).
Proof. unfold settle_trace. by destruct (context w !! "TRACEID"). Qed.




Lemma settle_draws w :
  draws w <= draws (settle_trace rand w) <= S (S (draws w)).
Proof. unfold settle_trace. destruct (context w !! "TRACEID"); simpl; lia. Qed.

(** [add_trace_headers] in one equation. *)
Lemma add_trace_headers_eq headers w :
  add_trace_headers rand headers w =
  (match trace_pair (settle_trace rand w) with
   | Some (t, s) => Return (with_trace t s headers)
   | None => Raise (KeyError "SPANID")
   end, settle_trace rand w).
Proof.
  unfold add_trace_headers, bind, get_context, ret, settle_trace, trace_pair.
  destruct (context w !! "TRACEID") as [t|] eqn:Ht.
  - unfold context_get. rewrite !Ht. mstep.
    destruct (context w !! "SPANID") eqn:Hs; mstep; rewrite ?Ht, ?Hs; reflexivity.
  - unfold create_trace_id, randrange, bind, ret, context_set, logger_info,
      context_get, fresh_trace.
    mstep. reflexivity.
Qed.

(** *** The end of a call *)

Lemma finish_eq resp w :
  finish FAILED resp w =
  let w1 := put_self (answered resp (self w)) w in
  if ok resp then (Return tt, w1)
  else
    match loads (text resp) with
    | Err Invalid => (Raise JSONDecodeError, w1)
    | Err _ => (Raise Unmodelled, w1)
    | Ok (PDict d) =>
        match Dict.get (KStr "message") d with
        | Some msg =>
            let w2 := put_heap (heap w ++ [msg]) w1 in
            match action (self w) with
            | Value a =>
                (Return tt,
                 put_self (set_content (dumps (envelope (PStr FAILED) a msg))
                                       (answered resp (self w))) w2)
            | ClassObject =>
                (Raise (TypeError "Object of type type is not JSON serializable"), w2)
            end
        | None => (Raise (KeyError "message"), w1)
        end
    | Ok _ =>
        (Raise (TypeError "indices must be integers or object is not subscriptable"), w1)
    end.
Proof.
  unfold finish, check_response, bind, set_self, get_self, response_json. mstep.
  unfold answered, set_content, set_response, ret, raise.
  cbn [response action ok].
  destruct (ok resp); [reflexivity|]. cbn [negb]. mstep.
  destruct (loads (text resp)) as [[ | | | | |d]|[ | | ]]; try reflexivity.
  unfold subscript. destruct (Dict.get (KStr "message") d) as [msg|]; [|reflexivity].
  unfold process_content, ret, alloc, load, bind. cbn [negb]. mstep.
  rewrite list_lookup_middle by done.
  by destruct (action (self w)).
Qed.

(** *** A call in one equation *)

Lemma perform_eq c w :
  perform FAILED rand transport c w =
  let w0 := settle_trace rand w in
  match trace_pair w0 with
  | None => (Raise (KeyError "SPANID"), w0)
  | Some (t, s) =>
      match request_of c (self w0) (with_trace t s (base_headers c (self w0))) with
      | Raise e => (Raise e, w0)
      | Return r =>
          match transport (length (wire w0)) r with
          | Return resp => finish FAILED resp (put_wire (wire w0 ++ [r]) w0)
          | Raise e => (Raise e, put_wire (wire w0 ++ [r]) w0)
          end
      end
  end.
Proof.
  destruct (settle_same w) as (Hself & _).
  destruct c as [data timeout|timeout params|data| ]; simpl perform;
    unfold _call_post, _call_get, _call_put, _call_delete, bind at 1 2, get_self;
    mstep; rewrite add_trace_headers_eq, Hself;
    (destruct (trace_pair (settle_trace rand w)) as [[t s]|]; [|reflexivity]);
    unfold request_of, base_headers, bind, ret, raise, get_self, requests; mstep;
    rewrite ?Hself; mstep; rewrite ?Hself.
  - destruct data as [[ | | | | | ]|]; mstep; rewrite ?Hself; try reflexivity;
      by destruct (transport _ _).
  - by destruct (transport _ _).
  - by destruct (transport _ _).
  - by destruct (transport _ _).
Qed.

End Runtime.
End ClientFacts.

Module EnvelopeFacts.
Import Py Json StrFacts DigitFacts JsonFacts ClientFacts.

(** *** Dicts *)





(** The envelope, once decoded. *)
Lemma normalize_envelope status comment params :
  normalize (envelope (PStr status) (PStr comment) params)
  = envelope (PStr status) (PStr comment) (normalize params).
Proof. reflexivity. Qed.

Lemma loads_envelope status comment params :
  loads (dumps (envelope (PStr status) (PStr comment) params))
  = Ok (envelope (PStr status) (PStr comment) (normalize params)).
Proof. by rewrite loads_dumps, normalize_envelope. Qed.

(** *** [process_content] *)

Lemma process_content_quiet status comment l w v :
  heap w !! l = Some v ->
  forall log, from_default false log = false ->
  process_content status comment l log w =
  (match comment with
   | Value c => Return (dumps (envelope (PStr status) c v))
   | ClassObject => Raise (TypeError "Object of type type is not JSON serializable")
   end, w).
Proof.
  intros Hl log Hlog. unfold process_content, bind, load, ret. rewrite Hlog, Hl.
  by destruct comment.
Qed.

Lemma process_content_logged status comment l w d :
  heap w !! l = Some (PDict d) ->
  process_content status comment l (Some true) w =
  (match comment with
   | Value c => Return (dumps (envelope (PStr status) c (PDict d)))
   | ClassObject => Raise (TypeError "Object of type type is not JSON serializable")
   end,
   put_logged (logged w ++ [dumps_indent4 (PDict (sanitized d))])
     (put_heap (heap w ++ [PDict (sanitized d)]) w)).
Proof.
  intros Hl.
  assert (forall x : pyval, (heap w ++ [x]) !! l = Some (PDict d)) as Hl'.
  { intros x. by apply lookup_app_l_Some. }
  unfold process_content, deepcopy, py_in, py_del, bind, load, alloc, store, ret,
    logger_info, sanitized.
  mstep. rewrite Hl. mstep. rewrite list_lookup_middle by done. mstep.
  destruct (Dict.has (KStr "TOKEN") d) eqn:Hhas; mstep.
  - rewrite list_lookup_middle by done. mstep. rewrite Hhas. mstep.
    rewrite insert_app_r_alt, Nat.sub_diag by done. cbn [insert list_insert].
    rewrite list_lookup_middle by done. mstep. rewrite Hl'.
    by destruct comment.
  - rewrite list_lookup_middle by done. mstep. rewrite Hl'.
    by destruct comment.
Qed.

Section Tasks.

Variables ENDED FAILED : string.

Lemma task_success_eq comment l log w d :
  heap w !! l = Some (PDict d) ->
  task_success ENDED (Value (PStr comment)) l log w =
  (Raise (SystemExit 0), reported ENDED comment d log w).
Proof.
  intros Hl. unfold task_success, reported, bind, print, sys_exit, raise.
  destruct (from_default true log) eqn:Hlog.
  - by rewrite (process_content_logged _ _ _ _ d Hl).
  - by rewrite (process_content_quiet _ _ _ _ _ Hl).
Qed.

Lemma task_error_eq comment l log w d :
  heap w !! l = Some (PDict d) ->
  task_error FAILED (Value (PStr comment)) l log w =
  (Raise (SystemExit 1), reported FAILED comment d log w).
Proof.
  intros Hl. unfold task_error, reported, bind, print, sys_exit, raise.
  destruct (from_default true log) eqn:Hlog.
  - by rewrite (process_content_logged _ _ _ _ d Hl).
  - by rewrite (process_content_quiet _ _ _ _ _ Hl).
Qed.

End Tasks.

End EnvelopeFacts.

Module CallFacts.
Import Py Json StrFacts DigitFacts JsonFacts ClientFacts EnvelopeFacts.

Section Calls.

Variable FAILED : string.
Variable rand : nat -> N.
Variable transport : nat -> Request -> outcome Response.

(** The end of a call touches the client and the objects only. *)
Lemma finish_frame resp w :
  let w' := snd (finish FAILED resp w) in
  wire w' = wire w /\ context w' = context w /\ draws w' = draws w
  /\ logged w' = logged w /\ stdout w' = stdout w.
Proof.
  rewrite finish_eq. cbv zeta.
  destruct (ok resp); [done|].
  destruct (loads (text resp)) as [[ | | | | |d]|[ | | ]]; try done.
  destruct (Dict.get (KStr "message") d); [|done].
  by destruct (action (self w)).
Qed.

Lemma with_trace_carries t s headers r :
  req_headers r = with_trace t s headers -> carries t s r.
Proof.
  intros Hr. unfold carries, trace_of, with_trace in *. rewrite Hr.
  rewrite lookup_insert_ne by done. rewrite lookup_insert_ne by done.
  rewrite lookup_insert_eq.
  rewrite lookup_insert_ne by done. rewrite lookup_insert_eq.
  by rewrite lookup_insert_eq.
Qed.

Lemma request_of_headers c a headers r :
  request_of c a headers = Return r -> req_headers r = headers.
Proof.
  destruct c as [[[ | | | | | ]|] timeout|timeout params|data| ]; simpl;
    intros; by simplify_eq.
Qed.

Lemma request_of_timeout c a headers r :
  request_of c a headers = Return r -> req_timeout r = timeout_of c.
Proof.
  destruct c as [[[ | | | | | ]|] timeout|timeout params|data| ]; simpl;
    intros; by simplify_eq.
Qed.

(** A call either raises before anything is sent, leaving only the
    trace behind, or sends one request that carries the trace and
    goes on with what the transport does. *)
Lemma perform_cases c w :
  let w0 := settle_trace rand w in
  (exists e, perform FAILED rand transport c w = (Raise e, w0)
             /\ (e = KeyError "SPANID" /\ trace_pair w0 = None
                 \/ exists t s, trace_pair w0 = Some (t, s)
                      /\ request_of c (self w)
                           (with_trace t s (base_headers c (self w))) = Raise e))
  \/ (exists t s r,
        trace_pair w0 = Some (t, s)
        /\ request_of c (self w) (with_trace t s (base_headers c (self w))) = Return r
        /\ perform FAILED rand transport c w =
           match transport (length (wire w)) r with
           | Return resp => finish FAILED resp (put_wire (wire w ++ [r]) w0)
           | Raise e => (Raise e, put_wire (wire w ++ [r]) w0)
           end).
Proof.
  cbv zeta. rewrite perform_eq. cbv zeta.
  destruct (settle_same rand w) as (-> & _ & _ & ->).
  destruct (trace_pair (settle_trace rand w)) as [[t s]|]; [|by left; eauto].
  destruct (request_of c (self w) _) as [r|e] eqn:Hreq.
  - right. by exists t, s, r.
  - left. exists e. split; [done|]. right. by exists t, s.
Qed.

Lemma app_singleton_neq {A} (l : list A) x : l ++ [x] <> l.
Proof.
  intros H. apply (f_equal length) in H. rewrite length_app in H. simpl in H. lia.
Qed.

(** What is known of a call that has sent the request [r]. *)
Lemma perform_sent c w out w' r :
  perform FAILED rand transport c w = (out, w') ->
  wire w' = wire w ++ [r] ->
  let w0 := settle_trace rand w in
  exists t s,
    trace_pair w0 = Some (t, s)
    /\ carries t s r
    /\ req_timeout r = timeout_of c
    /\ (out, w') =
       match transport (length (wire w)) r with
       | Return resp => finish FAILED resp (put_wire (wire w ++ [r]) w0)
       | Raise e => (Raise e, put_wire (wire w ++ [r]) w0)
       end.
Proof.
  intros Hrun Hwire. cbv zeta.
  destruct (settle_same rand w) as (_ & _ & _ & Hw0).
  destruct (perform_cases c w) as [(e & He & _)|(t & s & r0 & Hts & Hreq & He)];
    rewrite He in Hrun.
  - injection Hrun as <- <-. rewrite Hw0 in Hwire.
    by destruct (app_singleton_neq (wire w) r).
  - assert (wire w' = wire w ++ [r0]) as Hw'.
    { destruct (transport (length (wire w)) r0) as [resp|e].
      - destruct (finish_frame resp (put_wire (wire w ++ [r0]) (settle_trace rand w)))
          as (Hf & _).
        rewrite Hrun in Hf. exact Hf.
      - by injection Hrun as <- <-. }
    rewrite Hwire in Hw'. apply app_inj_tail in Hw' as [_ ->].
    exists t, s. split; [done|]. split; [|split].
    + eapply with_trace_carries, request_of_headers, Hreq.
    + by eapply request_of_timeout.
    + congruence.
Qed.

(** What is known of a call that has sent nothing. *)
Lemma perform_unsent c w out w' :
  perform FAILED rand transport c w = (out, w') ->
  wire w' = wire w ->
  w' = settle_trace rand w /\ exists e, out = Raise e.
Proof.
  intros Hrun Hwire.
  destruct (perform_cases c w) as [(e & He & _)|(t & s & r0 & Hts & Hreq & He)];
    rewrite He in Hrun.
  - injection Hrun as <- <-. eauto.
  - exfalso. apply (app_singleton_neq (wire w) r0). rewrite <- Hwire at 2.
    destruct (transport (length (wire w)) r0) as [resp|e].
    + destruct (finish_frame resp (put_wire (wire w ++ [r0]) (settle_trace rand w)))
        as (Hf & _).
      rewrite Hrun in Hf. symmetry. exact Hf.
    + by injection Hrun as <- <-.
Qed.



End Calls.
End CallFacts.

Import Py Json StrFacts DigitFacts JsonFacts ClientFacts EnvelopeFacts CallFacts.

(** ** Runs of the sample process *)

(** The constructor reads the token from the context and builds the
    sample client. *)
Example init_builds_client :
  __init__ Sample.start = (Return tt, Sample.start).
Proof. reflexivity. Qed.

(** Without a token in the context the constructor raises. *)
Example init_needs_token :
  fst (__init__ (put_context ∅ Sample.start)) = Raise (KeyError "TOKEN").
Proof. reflexivity. Qed.

(** A 2xx answer without a body is stored as the empty text, which the
    [content] property reads as ["{}"]. *)
Example empty_body_reads_as_empty_object :
  let w' := snd (_call_delete Sample.failed Sample.rand0
                   (Sample.answer Sample.no_content) Sample.start) in
  _content (self w') = EmptyString /\ content (self w') = "{}".
Proof. vm_compute. by split. Qed.

(** [Order.command_execute] hands its own default of 300 seconds to
    [_call_post]. *)
Example command_execute_timeout :
  map req_timeout
    (wire (snd (command_execute Sample.failed Sample.rand0
                  (Sample.answer Sample.services) 42 "CREATE" (PDict []) None
                  Sample.start)))
  = [Some 300%Z].
Proof. vm_compute. reflexivity. Qed.

(** A client whose action was never set cannot report a failed call:
    the class object that [__init__] stores is not serializable. *)
Example unset_action_is_not_serializable :
  fst (_call_get Sample.failed Sample.rand0 (Sample.answer Sample.bad_input)
         None None Sample.start)
  = Raise (TypeError "Object of type type is not JSON serializable").
Proof. vm_compute. reflexivity. Qed.

(** * The claims *)

(** ** Response classification *)



(** C8 as stated fails: a GET answered with HTTP 204 and an empty body
    is answered with an ok response, and the client's content then
    reads ["{}"], which is not the raw text of the response. *)
Lemma ok_empty_body_is_not_verbatim :
  exists w',
    command_objects_all Sample.failed Sample.rand0
      (Sample.answer Sample.no_content) 42 Sample.start = (Return tt, w')
    /\ response (self w') = Some Sample.no_content
    /\ ok Sample.no_content = true
    /\ text Sample.no_content = EmptyString
    /\ content (self w') = "{}"
    /\ content (self w') <> text Sample.no_content.
Proof.
  eexists. split; [vm_compute; reflexivity|].
  split; [reflexivity|]. split; [reflexivity|]. split; [reflexivity|].
  split; [reflexivity|discriminate].
Qed.

(** C1, as the code has it. For every call that is answered with a
    response that is not ok and whose body is a JSON object with a
    [message] field, when the client's action is a name, the call
    returns normally and the stored content is the envelope whose
    decoded [wo_status] is FAILED, whose [wo_comment] is the name of
    the action and whose [wo_newparams] is the message. *)
Theorem failed_response_enveloped
    (FAILED : string) (rand : nat -> N)
    (transport : nat -> Request -> outcome Response)
    (c : call) (w w' : world) (out : outcome unit) (r : Request) (resp : Response)
    (d : Dict.items) (msg : pyval) (name : string) :
  perform FAILED rand transport c w = (out, w') ->
  wire w' = wire w ++ [r] ->
  transport (length (wire w)) r = Return resp ->
  ok resp = false ->
  loads (text resp) = Ok (PDict d) ->
  Dict.get (KStr "message") d = Some msg ->
  action (self w) = Value (PStr name) ->
  out = Return tt
  /\ _content (self w') = dumps (envelope (PStr FAILED) (PStr name) msg)
  /\ decoded_field "wo_status" (_content (self w')) = Some (PStr FAILED)
  /\ decoded_field "wo_comment" (_content (self w')) = Some (PStr name)
  /\ decoded_field "wo_newparams" (_content (self w')) = Some msg.
Proof.
  intros Hrun Hwire Hresp Hok Hbody Hmsg Hact.
  destruct (perform_sent FAILED rand transport c w out w' r Hrun Hwire)
    as (t & s & _ & _ & _ & Hout).
  destruct (settle_same rand w) as (Hself & _).
  rewrite Hresp, finish_eq in Hout. cbv zeta in Hout.
  rewrite Hok, Hbody, Hmsg in Hout. cbn [self put_wire] in Hout.
  rewrite Hself, Hact in Hout. injection Hout as -> ->.
  assert (normalize msg = msg) as Hnorm.
  { pose proof (loads_normal _ _ Hbody) as Hd.
    destruct (normal_get _ _ _ Hd Hmsg). by apply normalize_id. }
  match goal with
  | |- _ /\ _content ?a = ?txt /\ _ =>
      assert (_content a = txt) as Hc by reflexivity
  end.
  split; [done|]. split; [exact Hc|].
  unfold decoded_field. rewrite Hc, loads_envelope, Hnorm. by repeat split.
Qed.

Lemma failed_response_enveloped_witness :
  let w' := snd (command_objects_all Sample.failed Sample.rand0
                   (Sample.answer Sample.bad_input) 42 Sample.start) in
  decoded_field "wo_status" (_content (self w')) = Some (PStr Sample.failed)
  /\ decoded_field "wo_comment" (_content (self w')) = Some (PStr "Get Microservices")
  /\ decoded_field "wo_newparams" (_content (self w')) = Some (PStr "bad input").
Proof.
  set (w1 := put_self (set_path "/ordercommand/objects/42"
                         (set_action (Value (PStr "Get Microservices")) Sample.client))
               Sample.start).
  destruct (failed_response_enveloped Sample.failed Sample.rand0
              (Sample.answer Sample.bad_input) (GET None None) w1
              (snd (perform Sample.failed Sample.rand0 (Sample.answer Sample.bad_input)
                      (GET None None) w1))
              (Return tt)
              (mkRequest "GET" "http://localhost:8480/ubi-api-rest/ordercommand/objects/42"
                 (with_trace "0000000000000000000000000000004d" "00000000000f4290"
                    (base_headers (GET None None) Sample.client))
                 PNone (PDict []) (Some 60%Z))
              Sample.bad_input
              [(KStr "message", PStr "bad input")] (PStr "bad input") "Get Microservices")
    as (_ & _ & H1 & H2 & H3).
  - vm_compute. reflexivity.
  - vm_compute. reflexivity.
  - reflexivity.
  - reflexivity.
  - vm_compute. reflexivity.
  - reflexivity.
  - reflexivity.
  - split; [exact H1|]. split; [exact H2|exact H3].
Defined.

(** C1 as stated fails: after a GET of the microservices answered with
    HTTP 400 and the body [{"message":"bad input"}], the decoded
    [wo_comment] is the name of the action and does not contain the
    message. *)
Lemma failed_comment_lacks_message :
  let w' := snd (command_objects_all Sample.failed Sample.rand0
                   (Sample.answer Sample.bad_input) 42 Sample.start) in
  ~ comment_contains (_content (self w')) "bad input".
Proof.
  intros w' (c & Hc & Hin).
  assert (decoded_field "wo_comment" (_content (self w'))
          = Some (PStr "Get Microservices")) as Hfield by (vm_compute; reflexivity).
  rewrite Hfield in Hc. injection Hc as <-. vm_compute in Hin. discriminate.
Qed.

(** ** The envelope encoder *)

(** C2, as the code has it. For every mapping whose keys, at every
    depth, are strings (and distinct within one dict, as in any Python
    dict) and every comment string, the encoder returns a text, and
    parsing it yields exactly the object with [wo_status] ENDED,
    [wo_comment] the comment and [wo_newparams] the mapping. *)
Theorem encode_round_trips
    (ENDED comment : string) (d : Dict.items) (l : loc) (w : world) :
  heap w !! l = Some (PDict d) ->
  str_keys (PDict d) = true ->
  well_formed (PDict d) ->
  exists txt,
    process_content ENDED (Value (PStr comment)) l None w = (Return txt, w)
    /\ round_trips ENDED comment (PDict d) txt.
Proof.
  intros Hl Hkeys Hwf. eexists. split.
  - by rewrite (process_content_quiet _ _ _ _ _ Hl).
  - unfold round_trips. by rewrite loads_envelope, normalize_id.
Qed.

Lemma encode_round_trips_witness :
  exists txt,
    process_content Sample.ended (Value (PStr "done")) 0 None
      (Sample.holding (PDict [(KStr "x", PInt 1); (KStr "y", PList [PNone; PStr "z"])]))
    = (Return txt,
       Sample.holding (PDict [(KStr "x", PInt 1); (KStr "y", PList [PNone; PStr "z"])]))
    /\ round_trips Sample.ended "done"
         (PDict [(KStr "x", PInt 1); (KStr "y", PList [PNone; PStr "z"])]) txt.
Proof.
  apply (encode_round_trips Sample.ended "done"
           [(KStr "x", PInt 1); (KStr "y", PList [PNone; PStr "z"])] 0).
  - reflexivity.
  - reflexivity.
  - simpl. split; [|tauto].
    apply NoDup_cons. split; [|apply NoDup_singleton].
    intros H. apply list_elem_of_singleton in H. discriminate.
Defined.

(** C2 as stated fails: the mapping [{1: "a"}] is JSON-serializable,
    and parsing the text of its envelope yields the mapping
    [{"1": "a"}] instead. *)
Lemma int_key_does_not_round_trip :
  exists txt w',
    process_content Sample.ended (Value (PStr "c")) 0 None
      (Sample.holding (PDict [(KInt 1, PStr "a")])) = (Return txt, w')
    /\ loads txt = Ok (envelope (PStr Sample.ended) (PStr "c") (PDict [(KStr "1", PStr "a")]))
    /\ ~ round_trips Sample.ended "c" (PDict [(KInt 1, PStr "a")]) txt.
Proof.
  eexists _, _. split; [reflexivity|]. split; [vm_compute; reflexivity|].
  unfold round_trips. vm_compute. discriminate.
Qed.



(** C7 as stated fails: [del woToken['TOKEN']] removes the top-level
    item only. A mapping that holds the token once more, in a nested
    mapping, contains a TOKEN key, and the record logged for it
    contains the token value. *)
Lemma nested_token_is_logged :
  let d := [(KStr "TOKEN", PStr "s3cr3t");
            (KStr "sub", PDict [(KStr "TOKEN", PStr "s3cr3t")])] in
  let w := Sample.holding (PDict d) in
  Dict.has (KStr "TOKEN") d = true
  /\ exists txt w1 line,
       process_content Sample.ended (Value (PStr "done")) 0 (Some true) w
       = (Return txt, w1)
       /\ logged w1 = [line]
       /\ str_contains "s3cr3t" line = true.
Proof.
  intros d w. split; [reflexivity|].
  eexists _, _, _. split; [vm_compute; reflexivity|].
  split; [reflexivity|]. vm_compute. reflexivity.
Qed.

(** ** The task reporter *)

(** C6. For every comment string and context mapping, [task_success]
    prints one line and exits with code 0, [task_error] prints one
    line and exits with code 1; the line has no line break in it, and
    it is the JSON text of the object with [wo_status] ENDED, respectively
    FAILED, [wo_comment] the comment and [wo_newparams] the context
    (as [json.loads] returns it: the context itself when its keys are
    strings). *)
Theorem task_reports_and_exits
    (ENDED FAILED comment : string) (d : Dict.items) (l : loc)
    (log : option bool) (w : world) :
  heap w !! l = Some (PDict d) ->
  (exists w',
     task_success ENDED (Value (PStr comment)) l log w = (Raise (SystemExit 0), w')
     /\ printed_envelope ENDED comment d w w')
  /\ (exists w',
        task_error FAILED (Value (PStr comment)) l log w = (Raise (SystemExit 1), w')
        /\ printed_envelope FAILED comment d w w')
  /\ (str_keys (PDict d) = true -> well_formed (PDict d) ->
      normalize (PDict d) = PDict d).
Proof.
  intros Hl.
  assert (forall status, printed_envelope status comment d w
                           (reported status comment d log w)) as Hprinted.
  { intros status. unfold printed_envelope. cbv zeta.
    split; [unfold reported; by destruct (from_default true log)|].
    split; [apply dumps_one_line|apply loads_envelope]. }
  split; [|split].
  - eexists. split; [by apply task_success_eq|apply Hprinted].
  - eexists. split; [by apply task_error_eq|apply Hprinted].
  - apply normalize_id.
Qed.

Lemma task_reports_and_exits_witness :
  let w := Sample.holding (PDict [(KStr "x", PInt 1)]) in
  exists w',
    task_success Sample.ended (Value (PStr "done")) 0 None w = (Raise (SystemExit 0), w')
    /\ printed_envelope Sample.ended "done" [(KStr "x", PInt 1)] w w'.
Proof.
  intros w.
  exact (proj1 (task_reports_and_exits Sample.ended Sample.failed "done"
                  [(KStr "x", PInt 1)] 0 None w eq_refl)).
Defined.

(** ** The transport *)




(** C9, as the code has it. When no timeout is specified, POST and GET
    hand [requests] a timeout of 60 seconds; with one, they hand it
    on; PUT and DELETE hand [requests] no timeout at all. *)
Theorem timeout_defaults
    (FAILED : string) (rand : nat -> N)
    (transport : nat -> Request -> outcome Response)
    (c : call) (w w' : world) (out : outcome unit) (r : Request) :
  perform FAILED rand transport c w = (out, w') ->
  wire w' = wire w ++ [r] ->
  req_timeout r =
  match c with
  | POST _ None | GET None _ => Some 60%Z
  | POST _ (Some t) | GET (Some t) _ => t
  | PUT _ | DELETE => None
  end.
Proof.
  intros Hrun Hwire.
  destruct (perform_sent FAILED rand transport c w out w' r Hrun Hwire)
    as (t & s & _ & _ & -> & _).
  by destruct c as [data [t'|]|[t'|] params|data| ].
Qed.

Lemma timeout_defaults_witness :
  exists r,
    wire (snd (perform Sample.failed Sample.rand0 (Sample.answer Sample.services)
                 (POST None None) Sample.start)) = [r]
    /\ req_timeout r = Some 60%Z.
Proof.
  eexists. split; [vm_compute; reflexivity|].
  eapply (timeout_defaults Sample.failed Sample.rand0 (Sample.answer Sample.services)
            (POST None None) Sample.start).
  - apply surjective_pairing.
  - vm_compute. reflexivity.
Defined.

(** C9 as stated fails: a GET with no timeout specified hands
    [requests] a timeout of 60 seconds, not none. *)
Lemma get_has_default_timeout :
  exists w' r,
    _call_get Sample.failed Sample.rand0 (Sample.answer Sample.services)
      None None Sample.start = (Return tt, w')
    /\ wire w' = [r]
    /\ req_timeout r = Some 60%Z
    /\ req_timeout r <> None.
Proof.
  eexists _, _. split; [vm_compute; reflexivity|].
  split; [reflexivity|]. split; [reflexivity|discriminate].
Qed.

(** C10. The [content] property is never the empty text; when the
    stored text is empty, as it is for a client that has made no call,
    the property reads ["{}"], which parses to the empty object. *)
Theorem content_defaults_to_empty_object (a : MSA_API) :
  content a <> EmptyString
  /\ (_content a = EmptyString ->
      content a = "{}" /\ loads (content a) = Ok (PDict [])).
Proof.
  unfold content. split.
  - by destruct (_content a).
  - by intros ->.
Qed.

Lemma content_defaults_to_empty_object_witness :
  exists w',
    __init__ Sample.start = (Return tt, w')
    /\ content (self w') = "{}"
    /\ loads (content (self w')) = Ok (PDict []).
Proof.
  eexists. split; [reflexivity|].
  apply (content_defaults_to_empty_object _). reflexivity.
Defined.

(** ** The trace *)

(** C5. Whatever the random source yields, [create_trace_id] returns a
    trace id of exactly 32 lowercase hexadecimal characters and a span
    id of exactly 16. *)
Theorem trace_id_format (rand : nat -> N) (w : world) :
  exists t s w',
    create_trace_id rand w = (Return (t, s), w')
    /\ String.length t = 32 /\ all_chars is_lower_hex t = true
    /\ String.length s = 16 /\ all_chars is_lower_hex s = true.
Proof.
  eexists _, _, _. split; [reflexivity|].
  assert (rand (draws w) mod 16 ^ 32 < 16 ^ N.of_nat 32)%N as Ht.
  { apply N.mod_lt. done. }
  assert (rand (S (draws w)) mod 6 ^ 23 < 16 ^ N.of_nat 16)%N as Hs.
  { eapply N.lt_trans; [apply N.mod_lt; done|]. reflexivity. }
  destruct (format_x_exact 32 _ ltac:(lia) Ht) as [? ?].
  destruct (format_x_exact 16 _ ltac:(lia) Hs) as [? ?].
  done.
Qed.

Section Stability.

Variable FAILED : string.
Variable rand : nat -> N.
Variable transport : nat -> Request -> outcome Response.



End Stability.



(** C4 as stated fails: a context can hold a trace id and no span id.
    Attaching the trace headers then raises [KeyError] instead of
    using the trace id, and a sequence of calls sends no request at
    all, so no call carries it. *)
Lemma trace_id_without_span_id_is_not_used :
  let cs := [(set_path "/a", GET None None); (set_path "/b", DELETE)] in
  context Cases.half_traced !! "TRACEID" = Some "00000000000000000000000000000001"
  /\ add_trace_headers Sample.rand0 ∅ Cases.half_traced
     = (Raise (KeyError "SPANID"), Cases.half_traced)
  /\ wire (perform_all Sample.failed Sample.rand0 (Sample.answer Sample.services)
             cs Cases.half_traced) = [].
Proof.
  intros cs. split; [reflexivity|]. split; vm_compute; reflexivity.
Qed.
